(** * SelfMapVisualization: the identity-map chart renderer

    A shallow embedding of [src/components/SelfMapVisualization.tsx]: the
    two scalar helpers [calculatePosition] and [calculateSize], the tree of
    SVG elements that the effect builds in the chart container, and the two
    pointer handlers attached to every data point.

    Conventions of the model.
    - A JavaScript [number] is an exact rational ([Q]); [===] on numbers is
      [Qeq_bool] and [>=] is a flipped [Qle_bool].  Rounding of IEEE-754
      doubles, [NaN] and the infinities are outside the model.
    - The DOM is a rose tree of elements.  An element records its tag, its
      attributes and inline styles (association lists, in the order they
      were set), the datum bound to it by a data join, its non-element
      content and its child elements.
    - A d3 transition is represented by its end state: the attribute or
      style it animates holds the target value.
    - Template literals are kept as lists of pieces, so that no
      number-to-string conversion has to be chosen. *)

From Stdlib Require Import QArith Lqa ZArith Lia.
From Stdlib Require Import String Ascii List Bool PeanoNat.
Import ListNotations.

Open Scope string_scope.
Open Scope list_scope.
Open Scope Q_scope.

(* ================================================================= *)
(** ** Input data *)

(** [interface IdentityData]. *)
Record IdentityData := mkIdentityData {
  Strength : Q;
  Title : option string;
  Beliefs : option string;
  Style : option string
}.

(** [Record<string, IdentityData>], as the list [Object.entries] returns. *)
Definition Data := list (string * IdentityData).

(** One element of [processedData].  Every element is a fresh object;
    [oid] is its identity (its index in the array), which is what [!==]
    compares. *)
Record entry := mkEntry {
  oid : nat;
  name : string;
  strength : Q;
  details : IdentityData
}.

(** The processed entries of [es], the first of which has index [i]. *)
Fixpoint process_from (i : nat) (es : Data) : list entry :=
  match es with
  | [] => []
  | (key, value) :: rest =>
      mkEntry i key (Strength value) value :: process_from (S i) rest
  end.

(** [Object.entries(data).map(([key, value]) => ({ name: key, strength:
    value.Strength, details: value }))]. *)
Definition processedData (data : Data) : list entry := process_from 0 data.

(** [item !== d] on two elements of [processedData]. *)
Definition entry_neq (item d : entry) : bool := negb (Nat.eqb (oid item) (oid d)).

(* ================================================================= *)
(** ** Dimensions and scales *)

(** [margin], [width] and [height], lines 25-27. *)
Record Margin := mkMargin { top : Q; right : Q; bottom : Q; left : Q }.

Definition margin : Margin := mkMargin 60 160 60 60.
Definition width : Q := 900 - left margin - right margin.
Definition height : Q := 700 - top margin - bottom margin.

(** A linear scale as the source builds it: [d3.scaleLinear()] with its
    [domain] and its [range]. *)
Record ScaleLinear := mkScale { domain : Q * Q; range : Q * Q }.

(** Modelled from the spec: calling a scale of [d3.scaleLinear], a
    function of the d3 library, which is not part of the sources.  The
    spec describes it as a linear scale that maps a domain onto a range:
    the affine map through the end points, written the way d3 evaluates
    it (normalise the input over the domain, then interpolate over the
    range).  The scale does not clamp. *)
Definition scaleLinear (scale : ScaleLinear) (x : Q) : Q :=
  let t := (x - fst (domain scale)) / (snd (domain scale) - fst (domain scale)) in
  fst (range scale) * (1 - t) + snd (range scale) * t.

Coercion scaleLinear : ScaleLinear >-> Funclass.

Definition xScale : ScaleLinear := mkScale (-10, 10) (0, width).
Definition yScale : ScaleLinear := mkScale (-10, 10) (height, 0).

(** The position helper of the source, lines 120-124. *)
Definition calculatePosition (value : Q) (scale : ScaleLinear) : Q :=
  if Qeq_bool value 10 then scale 0
  else if Qle_bool 5 value then scale (value / 2)
  else scale value.

(** The size helper of the source, lines 126-131. *)
Definition calculateSize (value : Q) : Q :=
  let baseSize := 7 in
  if Qeq_bool value 10 then baseSize * 1.8
  else if Qle_bool 5 value then baseSize * 1.4
  else baseSize.

(* ================================================================= *)
(** ** The categorical colour scale *)

(** Modelled from the spec: [d3.schemeSet3], the "fixed 12-color
    qualitative palette" of the d3 library. *)
Definition schemeSet3 : list string :=
  [ "#8dd3c7"; "#ffffb3"; "#bebada"; "#fb8072"; "#80b1d3"; "#fdb462";
    "#b3de69"; "#fccde5"; "#d9d9d9"; "#bc80bd"; "#ccebc5"; "#ffed6f" ].

(** The index of the first occurrence of [d] in a domain. *)
Fixpoint index_of (d : string) (dom : list string) : option nat :=
  match dom with
  | [] => None
  | x :: rest =>
      if String.eqb x d then Some 0%nat
      else option_map S (index_of d rest)
  end.

(** Modelled from the spec: one call of a [d3.scaleOrdinal] whose range
    is [palette] and whose domain is implicit.  [dom] is the scale's
    mutable domain: a value seen for the first time is added at its end
    ("assigned in encounter order"), and a value at index [i] gets
    [palette[i % palette.length]].  The result is the colour and the
    domain after the call. *)
Definition scaleOrdinal (palette : list string) (dom : list string) (d : string)
  : string * list string :=
  match index_of d dom with
  | Some i => (nth (i mod List.length palette) palette "", dom)
  | None => (nth (List.length dom mod List.length palette) palette "", dom ++ [d])
  end.

(** [colorScale], lines 61-62. *)
Definition colorScale : list string -> string -> string * list string :=
  scaleOrdinal schemeSet3.

(** The colours of a run of calls [colorScale(d.name)], one per entry and
    in order, threading the scale's domain. *)
Fixpoint colors (dom : list string) (ds : list entry) : list string * list string :=
  match ds with
  | [] => ([], dom)
  | d :: rest =>
      let (c, dom1) := colorScale dom (name d) in
      let (cs, dom2) := colors dom1 rest in
      (c :: cs, dom2)
  end.

(* ================================================================= *)
(** ** The element tree *)

(** A template literal: literal text and interpolated numbers. *)
Inductive piece := Lit (s : string) | Val (q : Q).

(** The value of an attribute, of a style property or of a text. *)
Inductive value := Num (q : Q) | Str (s : string) | Tpl (ps : list piece).

Inductive orient := axisBottom | axisLeft.

(** An axis generator: [d3.axisBottom(scale)] or [d3.axisLeft(scale)] with
    the settings the source gives it ([tickPadding] is d3's default 3 and
    [tickFormat] the scale's own format unless set). *)
Record axis := mkAxis {
  orientation : orient;
  axis_scale : ScaleLinear;
  tickSize : Q;
  tickPadding : Q;
  tickFormat : option (Q -> string)
}.

(** What an element holds besides child elements: nothing, a text, markup
    set through [.html(...)], or the domain line and tick marks that
    [.call(axis)] lets the d3 library draw (they carry the classes
    [domain] and [tick] only and are left to the library). *)
Inductive content :=
| NoContent
| Text (v : value)
| Html (v : value)
| Ticks (a : axis).

Unset Elimination Schemes.
Inductive node :=
| Elem (tag : string) (attrs styles : list (string * value))
       (datum : option entry) (inner : content) (kids : list node).
Set Elimination Schemes.

(** The parts of an element. *)
Definition tag_of (n : node) := let 'Elem t _ _ _ _ _ := n in t.
Definition attrs_of (n : node) := let 'Elem _ a _ _ _ _ := n in a.
Definition styles_of (n : node) := let 'Elem _ _ s _ _ _ := n in s.
Definition datum_of (n : node) := let 'Elem _ _ _ d _ _ := n in d.
Definition kids_of (n : node) := let 'Elem _ _ _ _ _ ks := n in ks.

(** The value of a key in an association list. *)
Fixpoint assoc (k : string) (l : list (string * value)) : option value :=
  match l with
  | [] => None
  | (k', v) :: rest => if String.eqb k' k then Some v else assoc k rest
  end.

(** Setting a key: the value is replaced where the key exists, and added
    at the end otherwise. *)
Fixpoint assoc_set (k : string) (v : value) (l : list (string * value))
  : list (string * value) :=
  match l with
  | [] => [(k, v)]
  | (k', v') :: rest =>
      if String.eqb k' k then (k', v) :: rest else (k', v') :: assoc_set k v rest
  end.

Definition attr (k : string) (n : node) : option value := assoc k (attrs_of n).
Definition style (k : string) (n : node) : option value := assoc k (styles_of n).

(** [selection.attr(k, v)], [selection.style(k, v)], [selection.datum(d)]
    and [selection.append(child)] on one element. *)
Definition set_attr (k : string) (v : value) (n : node) : node :=
  let 'Elem t a s d b ks := n in Elem t (assoc_set k v a) s d b ks.
Definition set_style (k : string) (v : value) (n : node) : node :=
  let 'Elem t a s d b ks := n in Elem t a (assoc_set k v s) d b ks.
Definition set_datum (x : entry) (n : node) : node :=
  let 'Elem t a s _ b ks := n in Elem t a s (Some x) b ks.
Definition set_kids (ks : list node) (n : node) : node :=
  let 'Elem t a s d b _ := n in Elem t a s d b ks.
Definition append (child : node) (n : node) : node :=
  set_kids (kids_of n ++ [child]) n.
Definition append_all (children : list node) (n : node) : node :=
  set_kids (kids_of n ++ children) n.

(** *** Class tokens and selectors *)

(** ASCII whitespace, which separates the tokens of a [class] attribute:
    tab, line feed, form feed, carriage return and space. *)
Definition is_space (c : ascii) : bool :=
  let n := nat_of_ascii c in
  (Nat.eqb n 9 || Nat.eqb n 10 || Nat.eqb n 12 || Nat.eqb n 13 || Nat.eqb n 32)%bool.

(** The tokens of a string: its maximal runs without white space. *)
Definition flush (acc : string) (rest : list string) : list string :=
  match acc with
  | EmptyString => rest
  | _ => acc :: rest
  end.

Fixpoint words_from (acc : string) (s : string) : list string :=
  match s with
  | EmptyString => flush acc []
  | String c rest =>
      if is_space c then flush acc (words_from EmptyString rest)
      else words_from (String.append acc (String c EmptyString)) rest
  end.

Definition words (s : string) : list string := words_from EmptyString s.

Definition classes (n : node) : list string :=
  match attr "class" n with
  | Some (Str s) => words s
  | _ => []
  end.

Definition has_class (c : string) (n : node) : bool :=
  existsb (String.eqb c) (classes n).

(** The two kinds of selector the source uses: ["*"] and [".name"]. *)
Inductive selector := Any | Class (c : string).

Definition matches (sel : selector) (n : node) : bool :=
  match sel with
  | Any => true
  | Class c => has_class c n
  end.

(** The elements of a subtree that match a selector, in document order,
    the root of the subtree included. *)
Fixpoint select (sel : selector) (n : node) : list node :=
  match n with
  | Elem t a s d b ks =>
      (if matches sel n then [n] else []) ++ flat_map (select sel) ks
  end.

(** [d3.selectAll(sel)] over a list of sibling trees; with the children
    of an element it is [element.selectAll(sel)]. *)
Definition selectAll (sel : selector) (forest : list node) : list node :=
  flat_map (select sel) forest.

(** [selectAll(sel).remove()] below an element: every matching descendant
    is detached from its parent, with everything under it. *)
Fixpoint remove_below (sel : selector) (n : node) : node :=
  match n with
  | Elem t a s d b ks =>
      Elem t a s d b
        (filter (fun k => negb (matches sel k)) (map (remove_below sel) ks))
  end.

(** [selectAll(sel).remove()] over a list of sibling trees. *)
Definition remove (sel : selector) (forest : list node) : list node :=
  filter (fun k => negb (matches sel k)) (map (remove_below sel) forest).

(** Applies [f] to the elements of a subtree that satisfy [p]; this is how
    the model follows a reference to an element ([this], [lineGroup]). *)
Fixpoint update (p : node -> bool) (f : node -> node) (n : node) : node :=
  match n with
  | Elem t a s d b ks =>
      let n' := Elem t a s d b (map (update p f) ks) in
      if p n then f n' else n'
  end.

(** *** Data joins *)

(** [selection.data(data).enter()]: elements and data are paired by
    index, and the data without an element enter. *)
Definition enter (existing : list node) (data : list entry) : list entry :=
  skipn (List.length existing) data.

(** [selection.data(data).join(tag)]: an existing element is kept and
    bound to the datum of its index, a datum without an element gets a
    new [tag] element, and an element without a datum is removed. *)
Fixpoint join (tag : string) (existing : list node) (data : list entry)
  : list node :=
  match data with
  | [] => []
  | d :: ds =>
      match existing with
      | [] => Elem tag [] [] (Some d) NoContent [] :: join tag [] ds
      | e :: es => set_datum d e :: join tag es ds
      end
  end.

(* ================================================================= *)
(** ** The chart the effect draws *)

(** A new element without datum, content or children. *)
Definition element (tag : string) (attrs styles : list (string * value)) : node :=
  Elem tag attrs styles None NoContent [].

(** The template [translate(${x}, ${y})]. *)
Definition translate (x y : Q) : value :=
  Tpl [Lit "translate("; Val x; Lit ", "; Val y; Lit ")"].

(** [.call(axis)] on a group. *)
Definition call (a : axis) (n : node) : node :=
  let 'Elem t at_ s d _ ks := n in Elem t at_ s d (Ticks a) ks.

(** [.text(v)] and [.html(v)] on an element. *)
Definition text (v : value) (n : node) : node :=
  let 'Elem t at_ s d _ ks := n in Elem t at_ s d (Text v) ks.

Definition html (v : value) (n : node) : node :=
  let 'Elem t at_ s d _ ks := n in Elem t at_ s d (Html v) ks.

(** The gradient definition, lines 38-50. *)
Definition defs : node :=
  let stop0 := element "stop"
    [("offset", Str "0%"); ("stop-color", Str "white"); ("stop-opacity", Num 0.3)] [] in
  let stop1 := element "stop"
    [("offset", Str "100%"); ("stop-color", Str "white"); ("stop-opacity", Num 0)] [] in
  let gradient :=
    append stop1 (append stop0 (element "radialGradient" [("id", Str "point-gradient")] [])) in
  append gradient (element "defs" [] []).

(** The tick format [() => ""] of the grid. *)
Definition blank : Q -> string := fun _ => "".

(** The two grid groups, lines 66-84. *)
Definition gridX : node :=
  call (mkAxis axisBottom xScale (- height) 3 (Some blank))
    (element "g"
       [("class", Str "grid"); ("transform", translate 0 (height / 2))]
       [("stroke", Str "#e5e7eb"); ("stroke-opacity", Num 0.5)]).

Definition gridY : node :=
  call (mkAxis axisLeft yScale (- width) 3 (Some blank))
    (element "g"
       [("class", Str "grid"); ("transform", translate (width / 2) 0)]
       [("stroke", Str "#e5e7eb"); ("stroke-opacity", Num 0.5)]).

(** [makeGrid], lines 65-85: the two grid groups, appended to [svg]. *)
Definition makeGrid (svg : node) : node := append gridY (append gridX svg).

(** [xAxis] and [yAxis], lines 90-95, and the groups they are drawn in,
    lines 97-107. *)
Definition xAxis : axis := mkAxis axisBottom xScale (-5) 10 None.
Definition yAxis : axis := mkAxis axisLeft yScale (-5) 10 None.

Definition axisX : node :=
  call xAxis
    (element "g"
       [("class", Str "axis"); ("transform", translate 0 (height / 2))]
       [("color", Str "#4b5563")]).

Definition axisY : node :=
  call yAxis
    (element "g"
       [("class", Str "axis"); ("transform", translate (width / 2) 0)]
       [("color", Str "#4b5563")]).

(** The two axis groups, lines 97-107. *)
Definition addAxes (svg : node) : node := append axisY (append axisX svg).

(** The group of connector lines, line 117. *)
Definition lineGroup : node := element "g" [("class", Str "connections")] [].

(** The outer circle of a data point, lines 140-145. *)
Definition glow_circle (d : entry) : node :=
  Elem "circle"
    [("class", Str "dot-glow");
     ("r", Num (calculateSize (strength d) * 2));
     ("cx", Num (calculatePosition (strength d) xScale));
     ("cy", Num (calculatePosition (strength d) yScale))]
    [("fill", Str "url(#point-gradient)")]
    (Some d) NoContent [].

(** The inner circle of a data point, lines 147-155.  [fill] is the value
    [colorScale(d.name)] returned when the circle was styled. *)
Definition dot_circle (d : entry) (fill : string) : node :=
  Elem "circle"
    [("class", Str "dot");
     ("r", Num (calculateSize (strength d)));
     ("cx", Num (calculatePosition (strength d) xScale));
     ("cy", Num (calculatePosition (strength d) yScale))]
    [("fill", Str fill); ("stroke", Str "white"); ("stroke-width", Str "2px");
     ("cursor", Str "pointer")]
    (Some d) NoContent [].

(** One data point, lines 134-155: the group appended for an entering
    datum, with the two circles appended to it (both inherit the group's
    datum). *)
Definition point_group (d : entry) (fill : string) : node :=
  Elem "g" [("class", Str "point-group")] [] (Some d) NoContent
    [glow_circle d; dot_circle d fill].

Fixpoint point_groups (ds : list entry) (fills : list string) : list node :=
  match ds, fills with
  | d :: ds', c :: cs => point_group d c :: point_groups ds' cs
  | _, _ => []
  end.

(** The colour swatch of a legend row, lines 216-220. *)
Definition swatch (d : entry) (fill : string) : node :=
  Elem "rect"
    [("width", Num 18); ("height", Num 18); ("rx", Num 4)]
    [("fill", Str fill)] (Some d) NoContent [].

(** The label of a legend row, lines 222-228. *)
Definition label (d : entry) : node :=
  Elem "text"
    [("x", Num 24); ("y", Num 9); ("dy", Str ".35em")]
    [("fill", Str "#666"); ("font-size", Str "12px")]
    (Some d) (Text (Str (name d))) [].

(** One legend row, lines 209-228; [i] is the index of the datum. *)
Definition legend_item (i : nat) (d : entry) (fill : string) : node :=
  Elem "g"
    [("class", Str "legend-item");
     ("transform", translate 0 (inject_Z (Z.of_nat i) * 25))]
    [] (Some d) NoContent [swatch d fill; label d].

Fixpoint legend_items (i : nat) (ds : list entry) (fills : list string) : list node :=
  match ds, fills with
  | d :: ds', c :: cs => legend_item i d c :: legend_items (S i) ds' cs
  | _, _ => []
  end.

(** The title and the subtitle, lines 231-246. *)
Definition title : node :=
  text (Str "Personal Identity Map")
    (element "text"
       [("x", Num (width / 2)); ("y", Num (- top margin / 2)); ("text-anchor", Str "middle")]
       [("font-size", Str "24px"); ("font-weight", Str "bold"); ("fill", Str "#333")]).

Definition subtitle : node :=
  text (Str "Exploring the dimensions of self-identity and personal values")
    (element "text"
       [("x", Num (width / 2)); ("y", Num (- top margin / 2 + 25));
        ("text-anchor", Str "middle")]
       [("font-size", Str "14px"); ("fill", Str "#666")]).

(** What the handlers of a drawn chart close over: the input mapping, the
    processed entries and the colour scale (its domain, which a call may
    extend). *)
Record closure := mkClosure {
  cl_data : Data;
  cl_processedData : list entry;
  cl_colorScale : list string
}.

(** The body of the effect after the guard and the clearing of the
    container, lines 24-246: the [svg] element it appends to the container
    and the closure of the handlers it attaches. *)
Definition draw (data : Data) : node * closure :=
  let svg :=
    element "g" [("transform", translate (left margin) (top margin))] [] in
  let svg := append defs svg in
  let svg := makeGrid svg in
  let svg := addAxes svg in
  let pd := processedData data in
  let svg := append lineGroup svg in
  (* svg.selectAll(".dot").data(processedData).enter().append("g") *)
  let entering := enter (selectAll (Class "dot") (kids_of svg)) pd in
  let (fills, dom1) := colors [] entering in
  let svg := append_all (point_groups entering fills) svg in
  let legend :=
    element "g" [("transform", translate (width + 20) 20)] [] in
  let present := selectAll (Class "legend-item") (kids_of legend) in
  let rows := enter present pd in
  let (swatches, dom2) := colors dom1 rows in
  let legend := append_all (legend_items (List.length present) rows swatches) legend in
  let svg := append legend svg in
  let svg := append title svg in
  let svg := append subtitle svg in
  (append svg
     (element "svg"
        [("width", Num (width + left margin + right margin));
         ("height", Num (height + top margin + bottom margin))] []),
   mkClosure data pd dom2).

(* ================================================================= *)
(** ** The page, the effect and the pointer handlers *)

(** The state the component acts on.  [chartRef] is [chartRef.current]:
    [None] when the reference is null, and the child elements of the
    container otherwise.  [body] holds the other elements of the document,
    in document order; what is appended to [<body>] goes to its end.  The
    container is kept apart from them: its ancestors and the [<body>]
    element itself are not modelled.  [handlers] is the closure of the
    handlers attached to the chart in the container. *)
Record page := mkPage {
  chartRef : option (list node);
  body : list node;
  handlers : option closure
}.

(** The whole document, as [d3.selectAll] searches it. *)
Definition document (st : page) : list node :=
  match chartRef st with
  | Some chart => chart ++ body st
  | None => body st
  end.

(** The effect, lines 18-248.  [data] is the component's property; a
    mapping that is [null] or [undefined] is [None] (an empty mapping is
    an object, hence truthy). *)
Definition useEffect (data : option Data) (st : page) : page :=
  match data, chartRef st with
  | Some d, Some container =>
      (* d3.select(chartRef.current).selectAll("*").remove() *)
      let container := remove Any container in
      let (svg, cl) := draw d in
      mkPage (Some (container ++ [svg])) (body st) (Some cl)
  | _, _ => st
  end.

(** [event.pageX] and [event.pageY]. *)
Record MouseEvent := mkMouseEvent { pageX : Q; pageY : Q }.

(** An optional line of the tooltip: the text when the field is a
    non-empty string, and the empty string otherwise. *)
Definition optional_line (label : string) (s : option string) (close : string)
  : list piece :=
  match s with
  | Some (String c rest) => [Lit label; Lit (String c rest); Lit close]
  | _ => []
  end.

(** The tooltip, lines 157-159 and 181-193, with its transition ended
    (the white space of the template is left out). *)
Definition tooltip (d : entry) (event : MouseEvent) : node :=
  html
    (Tpl ([Lit "<strong>"; Lit (name d); Lit "</strong><br> Strength: ";
           Val (strength d); Lit "/10<br> "]
          ++ optional_line "Role: " (Title (details d)) "<br>"
          ++ optional_line "Beliefs: " (Beliefs (details d)) "<br>"
          ++ optional_line "Style: " (Style (details d)) ""))
    (element "div"
       [("class", Str "absolute bg-black bg-opacity-90 text-white p-3 rounded-lg pointer-events-none opacity-0 transition-opacity duration-300 text-sm max-w-xs shadow-lg")]
       [("opacity", Num 1);
        ("left", Tpl [Val (pageX event + 10); Lit "px"]);
        ("top", Tpl [Val (pageY event - 10); Lit "px"])]).

(** The inner circle a handler was attached to for the entry [d]: [this]
    in the handlers. *)
Definition is_dot_of (d : entry) (n : node) : bool :=
  has_class "dot" n &&
  match datum_of n with
  | Some x => Nat.eqb (oid x) (oid d)
  | None => false
  end.

(** The element [lineGroup] refers to. *)
Definition is_lineGroup (n : node) : bool := has_class "connections" n.

(** The attributes and styles given to every joined line, lines 172-179;
    [x2] and [y2] come from the datum bound to the line. *)
Definition connection_line (centerX centerY : Q) (stroke : string) (n : node) : node :=
  match datum_of n with
  | Some item =>
      set_style "stroke-opacity" (Str "0.2")
        (set_style "stroke-width" (Str "1px")
           (set_style "stroke" (Str stroke)
              (set_attr "y2" (Num (calculatePosition (strength item) yScale))
                 (set_attr "x2" (Num (calculatePosition (strength item) xScale))
                    (set_attr "y1" (Num centerY)
                       (set_attr "x1" (Num centerX)
                          (set_attr "class" (Str "connection-line") n)))))))
  | None => n
  end.

(** The [mouseover] handler of the inner circle of the [i]-th entry,
    lines 156-194.  The group [lineGroup] holds connector lines only. *)
Definition mouseover (i : nat) (event : MouseEvent) (st : page) : page :=
  match handlers st, chartRef st with
  | Some cl, Some chart =>
      match nth_error (cl_processedData cl) i with
      | Some d =>
          let chart :=
            map (update (is_dot_of d)
                   (set_attr "r" (Num (calculateSize (strength d) * 1.2)))) chart in
          let centerX := calculatePosition (strength d) xScale in
          let centerY := calculatePosition (strength d) yScale in
          let others := filter (fun item => entry_neq item d) (cl_processedData cl) in
          let (stroke, dom) := colorScale (cl_colorScale cl) (name d) in
          let chart :=
            map (update is_lineGroup
                   (fun g =>
                      set_kids
                        (map (connection_line centerX centerY stroke)
                           (join "line"
                              (selectAll (Class "connection-line") (kids_of g))
                              others)) g)) chart in
          mkPage (Some chart) (body st ++ [tooltip d event])
            (Some (mkClosure (cl_data cl) (cl_processedData cl) dom))
      | None => st
      end
  | _, _ => st
  end.

(** The radius the [mouseout] transition ends at: [calculateSize] of the
    strength of the datum bound to the circle. *)
Definition restore_radius (n : node) : node :=
  match datum_of n with
  | Some d => set_attr "r" (Num (calculateSize (strength d))) n
  | None => n
  end.

(** The [mouseout] handler of the inner circle of the [i]-th entry, lines
    195-203. *)
Definition mouseout (i : nat) (st : page) : page :=
  match handlers st, chartRef st with
  | Some cl, Some chart =>
      match nth_error (cl_processedData cl) i with
      | Some d =>
          let chart := map (update (is_dot_of d) restore_radius) chart in
          (* lineGroup.selectAll(".connection-line").remove() *)
          let chart :=
            map (update is_lineGroup (remove_below (Class "connection-line"))) chart in
          (* d3.selectAll(".absolute").remove() *)
          mkPage (Some (remove (Class "absolute") chart))
            (remove (Class "absolute") (body st)) (Some cl)
      | None => st
      end
  | _, _ => st
  end.

(** The pages that show the chart of [data]: the page the effect leaves
    behind, and every page the pointer handlers of that chart lead to
    from there. *)
Inductive shows (data : Data) : page -> Prop :=
| shows_drawn (st : page) :
    chartRef st <> None -> shows data (useEffect (Some data) st)
| shows_mouseover (s : page) (i : nat) (event : MouseEvent) :
    shows data s -> shows data (mouseover i event s)
| shows_mouseout (s : page) (i : nat) :
    shows data s -> shows data (mouseout i s).

(* ================================================================= *)
(** ** Observations and closed forms

    What the properties are stated with: the elements a page shows, and
    the chart, its data points and its connector lines written out as
    terms. *)

(** The [svg] element, the group all of the chart is drawn in, and the
    legend group, with given children. *)
Definition svg_element (ks : list node) : node :=
  Elem "svg"
    [("width", Num (width + left margin + right margin));
     ("height", Num (height + top margin + bottom margin))]
    [] None NoContent ks.

Definition root_group (ks : list node) : node :=
  Elem "g" [("transform", translate (left margin) (top margin))] [] None NoContent ks.

Definition legend_group (rows : list node) : node :=
  Elem "g" [("transform", translate (width + 20) 20)] [] None NoContent rows.

(** The chart with [lines] in the group of connector lines, [points] as
    data points and [rows] as legend rows. *)
Definition chart_of (lines points rows : list node) : node :=
  svg_element
    [root_group
       ([defs; gridX; gridY; axisX; axisY; set_kids lines lineGroup]
          ++ points ++ [legend_group rows; title; subtitle])].

(** The selectors the properties below use; none of them matches the
    fixed elements of the chart. *)
Definition data_classes : list string :=
  ["dot"; "dot-glow"; "point-group"; "legend-item"; "connection-line"; "absolute"].

(** The inner circle with radius [r]. *)
Definition dot_circle_r (r : Q) (d : entry) (fill : string) : node :=
  Elem "circle"
    [("class", Str "dot"); ("r", Num r);
     ("cx", Num (calculatePosition (strength d) xScale));
     ("cy", Num (calculatePosition (strength d) yScale))]
    [("fill", Str fill); ("stroke", Str "white"); ("stroke-width", Str "2px");
     ("cursor", Str "pointer")]
    (Some d) NoContent [].

(** The data points whose inner circles have the radii [rho]. *)
Fixpoint points_r (rho : entry -> Q) (ds : list entry) (fills : list string)
  : list node :=
  match ds, fills with
  | d :: ds', c :: cs =>
      Elem "g" [("class", Str "point-group")] [] (Some d) NoContent
        [glow_circle d; dot_circle_r (rho d) d c] :: points_r rho ds' cs
  | _, _ => []
  end.

(** Their inner circles and their glow circles. *)
Fixpoint dots_r (rho : entry -> Q) (ds : list entry) (fills : list string)
  : list node :=
  match ds, fills with
  | d :: ds', c :: cs => dot_circle_r (rho d) d c :: dots_r rho ds' cs
  | _, _ => []
  end.

Fixpoint glows (ds : list entry) (fills : list string) : list node :=
  match ds, fills with
  | d :: ds', c :: cs => glow_circle d :: glows ds' cs
  | _, _ => []
  end.

(** The radius the effect gives the inner circle of an entry. *)
Definition base_radius (d : entry) : Q := calculateSize (strength d).

(** A connector line drawn from scratch for the datum [item]. *)
Definition line_node (centerX centerY : Q) (stroke : string) (item : entry) : node :=
  Elem "line"
    [("class", Str "connection-line"); ("x1", Num centerX); ("y1", Num centerY);
     ("x2", Num (calculatePosition (strength item) xScale));
     ("y2", Num (calculatePosition (strength item) yScale))]
    [("stroke", Str stroke); ("stroke-width", Str "1px");
     ("stroke-opacity", Str "0.2")]
    (Some item) NoContent [].

(** A predicate that can only hold of elements of class [c]. *)
Definition class_guarded (c : string) (p : node -> bool) : Prop :=
  forall n, has_class c n = false -> p n = false.

(** The colours the effect gets for the inner circles, and then for the
    legend swatches. *)
Definition fill_colors (data : Data) : list string :=
  fst (colors [] (processedData data)).

Definition swatch_colors (data : Data) : list string :=
  fst (colors (snd (colors [] (processedData data))) (processedData data)).

(** The domain of the colour scale when the effect has run. *)
Definition drawn_domain (data : Data) : list string :=
  snd (colors (snd (colors [] (processedData data))) (processedData data)).

(** The chart in closed form: the connector lines in [lines] and the
    radii [rho] for the inner circles. *)
Definition chart (data : Data) (lines : list node) (rho : entry -> Q) : node :=
  chart_of lines
    (points_r rho (processedData data) (fill_colors data))
    (legend_items 0 (processedData data) (swatch_colors data)).

(** The radii after pointer-enter and after pointer-leave on the point
    of [d]; the entries apart from [d]; the lines of a hover over [d]. *)
Definition hover_radius (d : entry) (rho : entry -> Q) : entry -> Q :=
  fun x => if Nat.eqb (oid x) (oid d) then calculateSize (strength d) * 1.2 else rho x.

Definition rest_radius (d : entry) (rho : entry -> Q) : entry -> Q :=
  fun x => if Nat.eqb (oid x) (oid d) then calculateSize (strength x) else rho x.

Definition others_of (data : Data) (d : entry) : list entry :=
  filter (fun item => entry_neq item d) (processedData data).

Definition hover_lines (data : Data) (dom : list string) (d : entry) : list node :=
  map (line_node (calculatePosition (strength d) xScale)
         (calculatePosition (strength d) yScale)
         (fst (colorScale dom (name d))))
      (others_of data d).

(** A page that shows the chart of [data] with the connector [lines] and
    the radii [rho], the rest of the document being [rest]. *)
Definition shown (data : Data) (lines : list node) (rho : entry -> Q)
           (rest : list node) : page :=
  mkPage (Some [chart data lines rho]) rest
    (Some (mkClosure data (processedData data) (drawn_domain data))).

(** The child elements of the container. *)
Definition chart_nodes (st : page) : list node :=
  match chartRef st with
  | Some container => container
  | None => []
  end.

(** The inner circles, the glow circles, the legend rows and the connector
    lines in the container, in document order. *)
Definition dots (st : page) : list node := selectAll (Class "dot") (chart_nodes st).
Definition glow_dots (st : page) : list node :=
  selectAll (Class "dot-glow") (chart_nodes st).
Definition legend_rows (st : page) : list node :=
  selectAll (Class "legend-item") (chart_nodes st).
Definition connection_lines (st : page) : list node :=
  selectAll (Class "connection-line") (chart_nodes st).

(** The [rect] appended to every legend row. *)
Definition swatches (st : page) : list node :=
  flat_map (fun row => filter (fun k => String.eqb (tag_of k) "rect") (kids_of row))
    (legend_rows st).

(** The mapping of the spec's worked example and an empty page. *)
Definition example_data : Data :=
  [("A", mkIdentityData 3 None None None); ("B", mkIdentityData 10 None None None)].

Definition empty_page : page := mkPage (Some []) [] None.

(** A mapping with one entry more than the palette has colours. *)
Definition thirteen : Data :=
  map (fun key => (key, mkIdentityData 1 None None None))
    ["a"; "b"; "c"; "d"; "e"; "f"; "g"; "h"; "i"; "j"; "k"; "l"; "m"].


(** The swatches of the legend rows of [ds]. *)
Fixpoint swatches_of (ds : list entry) (fills : list string) : list node :=
  match ds, fills with
  | d :: ds', c :: cs => swatch d c :: swatches_of ds' cs
  | _, _ => []
  end.

(** A page with two elements of class [absolute] that the chart did not
    create: a menu, and a badge inside a navigation bar. *)
Definition page_with_overlays : page :=
  mkPage (Some [])
    [ Elem "div" [("class", Str "menu absolute")] [] None (Text (Str "menu")) [];
      Elem "nav" [("class", Str "relative")] [] None NoContent
        [ Elem "span" [("class", Str "absolute top-0")] [] None (Text (Str "3")) [] ] ]
    None.

(** The content of an element. *)
Definition content_of (n : node) : content := let 'Elem _ _ _ _ b _ := n in b.

(** The point groups in the container. *)
Definition point_group_nodes (st : page) : list node :=
  selectAll (Class "point-group") (chart_nodes st).

(** An optional field as the tooltip reads it: the empty string counts
    as no string. *)
Definition present (s : option string) : option string :=
  match s with
  | Some (String c rest) => s
  | _ => None
  end.

(** The same entry with its optional fields as the tooltip reads them. *)
Definition as_read (d : entry) : entry :=
  mkEntry (oid d) (name d) (strength d)
    (mkIdentityData (Strength (details d)) (present (Title (details d)))
       (present (Beliefs (details d))) (present (Style (details d)))).

(** Pointer-enter on the [i]-th point once for every event of a list. *)
Definition mouseovers (i : nat) (events : list MouseEvent) (st : page) : page :=
  fold_left (fun p event => mouseover i event p) events st.

(* ================================================================= *)
(** * Properties *)

(** ** Comparisons and the two helpers *)

Lemma strict_eq_false (v c : Q) : ~ v == c -> Qeq_bool v c = false.
Proof.
  intros H. destruct (Qeq_bool v c) eqn:E; [|reflexivity].
  apply Qeq_bool_iff in E. contradiction.
Qed.

Lemma strict_eq_true (v c : Q) : v == c -> Qeq_bool v c = true.
Proof. intros H. now apply Qeq_bool_iff. Qed.

Lemma ge_true (v c : Q) : c <= v -> Qle_bool c v = true.
Proof. intros H. now apply Qle_bool_iff. Qed.

Lemma ge_false (v c : Q) : v < c -> Qle_bool c v = false.
Proof.
  intros H. destruct (Qle_bool c v) eqn:E; [|reflexivity].
  apply Qle_bool_iff in E. exfalso. apply (Qlt_not_le _ _ H E).
Qed.

Lemma calculatePosition_max (v : Q) (scale : ScaleLinear) :
  v == 10 -> calculatePosition v scale = scale 0.
Proof. intros H. unfold calculatePosition. now rewrite (strict_eq_true _ _ H). Qed.

Lemma calculatePosition_high (v : Q) (scale : ScaleLinear) :
  5 <= v -> ~ v == 10 -> calculatePosition v scale = scale (v / 2).
Proof.
  intros H5 H10. unfold calculatePosition.
  now rewrite (strict_eq_false _ _ H10), (ge_true _ _ H5).
Qed.

Lemma calculatePosition_low (v : Q) (scale : ScaleLinear) :
  v < 5 -> calculatePosition v scale = scale v.
Proof.
  intros H. unfold calculatePosition.
  rewrite strict_eq_false, (ge_false _ _ H); [reflexivity|].
  intros E. rewrite E in H. discriminate H.
Qed.


Lemma calculateSize_high (v : Q) :
  5 <= v -> ~ v == 10 -> calculateSize v = 7 * 1.4.
Proof.
  intros H5 H10. unfold calculateSize.
  now rewrite (strict_eq_false _ _ H10), (ge_true _ _ H5).
Qed.

Lemma calculateSize_low (v : Q) : v < 5 -> calculateSize v = 7.
Proof.
  intros H. unfold calculateSize.
  rewrite strict_eq_false, (ge_false _ _ H); [reflexivity|].
  intros E. rewrite E in H. discriminate H.
Qed.

(** The two scales in closed form. *)
Lemma xScale_eq (x : Q) : xScale x == 34 * (x + 10).
Proof. unfold xScale, scaleLinear, width, margin; simpl. field. Qed.

Lemma yScale_eq (x : Q) : yScale x == 29 * (10 - x).
Proof. unfold yScale, scaleLinear, height, margin; simpl. field. Qed.




(** ** Trees: induction, selection, removal and update *)

Lemma node_ind' (P : node -> Prop) :
  (forall t a s d b ks, Forall P ks -> P (Elem t a s d b ks)) ->
  forall n, P n.
Proof.
  intros step. fix IH 1. intros [t a s d b ks]. apply step.
  induction ks as [|k ks IHks]; constructor; [apply IH | exact IHks].
Qed.

Lemma matches_attrs (sel : selector) t a s d b ks t' s' d' b' ks' :
  matches sel (Elem t a s d b ks) = matches sel (Elem t' a s' d' b' ks').
Proof. destruct sel; reflexivity. Qed.

Lemma matches_remove_below (sel sel' : selector) (n : node) :
  matches sel (remove_below sel' n) = matches sel n.
Proof. destruct n. apply matches_attrs. Qed.

Lemma selectAll_app (sel : selector) (l1 l2 : list node) :
  selectAll sel (l1 ++ l2) = selectAll sel l1 ++ selectAll sel l2.
Proof. apply flat_map_app. Qed.

Lemma selectAll_cons (sel : selector) (n : node) (l : list node) :
  selectAll sel (n :: l) = select sel n ++ selectAll sel l.
Proof. reflexivity. Qed.

Lemma select_unfold (sel : selector) (n : node) :
  select sel n = (if matches sel n then [n] else []) ++ selectAll sel (kids_of n).
Proof. destruct n; reflexivity. Qed.

(** Nothing that matches is left after [selectAll(sel).remove()]. *)
Lemma select_remove_below (sel : selector) (n : node) :
  selectAll sel (kids_of (remove_below sel n)) = [].
Proof.
  induction n as [t a s d b ks IH] using node_ind'. simpl.
  induction ks as [|k ks IHks]; [reflexivity|].
  inversion IH as [|? ? Hk Hks]; subst. simpl.
  rewrite matches_remove_below.
  destruct (matches sel k) eqn:E; simpl.
  - now apply IHks.
  - rewrite select_unfold, matches_remove_below, E, Hk. simpl.
    now apply IHks.
Qed.

Lemma selectAll_remove (sel : selector) (forest : list node) :
  selectAll sel (remove sel forest) = [].
Proof.
  unfold remove. induction forest as [|k ks IH]; [reflexivity|]. simpl.
  rewrite matches_remove_below.
  destruct (matches sel k) eqn:E; simpl; [exact IH|].
  rewrite select_unfold, matches_remove_below, E, select_remove_below.
  simpl. exact IH.
Qed.

(** Everything matches ["*"], so [selectAll("*").remove()] empties. *)
Lemma remove_Any (forest : list node) : remove Any forest = [].
Proof. unfold remove. induction forest; [reflexivity|]. simpl. assumption. Qed.

(** Where nothing matches, [remove] changes nothing. *)
Lemma remove_below_none (sel : selector) (n : node) :
  selectAll sel (kids_of n) = [] -> remove_below sel n = n.
Proof.
  induction n as [t a s d b ks IH] using node_ind'. simpl. intros H.
  f_equal. induction ks as [|k ks IHks]; [reflexivity|].
  inversion IH as [|? ? Hk Hks]; subst.
  rewrite selectAll_cons, select_unfold in H.
  apply app_eq_nil in H. destruct H as [H1 H2].
  apply app_eq_nil in H1. destruct H1 as [H0 H1].
  simpl. rewrite matches_remove_below.
  destruct (matches sel k); [discriminate H0|]. simpl.
  rewrite (Hk H1). f_equal. now apply IHks.
Qed.

Lemma remove_none (sel : selector) (forest : list node) :
  selectAll sel forest = [] -> remove sel forest = forest.
Proof.
  unfold remove. induction forest as [|k ks IH]; [reflexivity|]. intros H.
  rewrite selectAll_cons, select_unfold in H.
  apply app_eq_nil in H. destruct H as [H1 H2].
  apply app_eq_nil in H1. destruct H1 as [H0 H1].
  simpl. rewrite matches_remove_below.
  destruct (matches sel k); [discriminate H0|]. simpl.
  rewrite (remove_below_none _ _ H1). f_equal. now apply IH.
Qed.

(** ** The processed entries and their colours *)

Lemma process_from_length (i : nat) (es : Data) :
  List.length (process_from i es) = List.length es.
Proof.
  revert i. induction es as [|[k v] es IH]; intros i; simpl; [reflexivity|].
  now rewrite IH.
Qed.

Lemma processedData_length (data : Data) :
  List.length (processedData data) = List.length data.
Proof. apply process_from_length. Qed.

Lemma process_from_nth (es : Data) (i j : nat) (key : string) (value : IdentityData) :
  nth_error es j = Some (key, value) ->
  nth_error (process_from i es) j = Some (mkEntry (i + j) key (Strength value) value).
Proof.
  revert i j. induction es as [|[k v] es IH]; intros i j H.
  - destruct j; discriminate H.
  - destruct j as [|j]; simpl in *.
    + injection H as -> ->. now rewrite Nat.add_0_r.
    + rewrite (IH (S i) j H). now rewrite Nat.add_succ_r.
Qed.

(** The [i]-th processed entry is the [i]-th entry of the mapping. *)
Lemma processedData_nth (data : Data) (i : nat) (key : string) (value : IdentityData) :
  nth_error data i = Some (key, value) ->
  nth_error (processedData data) i = Some (mkEntry i key (Strength value) value).
Proof. intros H. apply (process_from_nth data 0 i key value H). Qed.

Lemma process_from_oid (es : Data) (i j : nat) (d : entry) :
  nth_error (process_from i es) j = Some d -> oid d = (i + j)%nat.
Proof.
  revert i j. induction es as [|[k v] es IH]; intros i j H.
  - destruct j; discriminate H.
  - destruct j as [|j]; simpl in *.
    + injection H as <-. simpl. now rewrite Nat.add_0_r.
    + rewrite (IH (S i) j H). now rewrite Nat.add_succ_r.
Qed.

(** The identity of a processed entry is its index. *)
Lemma processedData_oid (data : Data) (j : nat) (d : entry) :
  nth_error (processedData data) j = Some d -> oid d = j.
Proof. apply (process_from_oid data 0 j d). Qed.

(** ** The shape of the chart *)

Lemma draw_shape (data : Data) :
  let pd := processedData data in
  let fills := colors [] pd in
  let swatches := colors (snd fills) pd in
  draw data =
    (chart_of [] (point_groups pd (fst fills)) (legend_items 0 pd (fst swatches)),
     mkClosure data pd (snd swatches)).
Proof.
  intros pd fills swatches. unfold draw.
  change (enter _ (processedData data)) with pd at 1.
  fold pd. fold fills. destruct fills as [fs dom1] eqn:E1.
  change (enter _ pd) with pd.
  unfold swatches. simpl snd. destruct (colors dom1 pd) as [ss dom2].
  unfold chart_of, svg_element, root_group, legend_group.
  unfold append, append_all, makeGrid, addAxes, element. simpl.
  now rewrite <- !app_assoc.
Qed.

Lemma update_unfold (p : node -> bool) (f : node -> node) (n : node) :
  update p f n =
    if p n then f (set_kids (map (update p f) (kids_of n)) n)
    else set_kids (map (update p f) (kids_of n)) n.
Proof. destruct n; reflexivity. Qed.

Lemma select_plain (sel : selector) (n : node) :
  matches sel n = false -> select sel n = selectAll sel (kids_of n).
Proof. intros H. now rewrite select_unfold, H. Qed.

Lemma selectAll_nil (sel : selector) : selectAll sel [] = [].
Proof. reflexivity. Qed.

Ltac skip_fixed :=
  repeat (rewrite selectAll_cons, select_plain by reflexivity;
          cbn [kids_of svg_element root_group legend_group
                 defs gridX gridY axisX axisY title subtitle lineGroup
                 call text element append set_kids app]);
  rewrite ?selectAll_nil, ?app_nil_r, ?app_nil_l.

Lemma select_chart (c : string) (lines points rows : list node) :
  In c data_classes ->
  selectAll (Class c) [chart_of lines points rows] =
    selectAll (Class c) lines ++ selectAll (Class c) points
      ++ selectAll (Class c) rows.
Proof.
  intros H. simpl in H.
  repeat (destruct H as [<-|H]);
    try contradiction;
    (unfold chart_of;
     rewrite selectAll_cons, selectAll_nil, app_nil_r;
     rewrite select_plain by reflexivity; cbn [kids_of svg_element];
     rewrite selectAll_cons, selectAll_nil, app_nil_r;
     rewrite select_plain by reflexivity; cbn [kids_of root_group];
     rewrite !selectAll_app;
     f_equal; [ skip_fixed | f_equal; skip_fixed ]; reflexivity).
Qed.

(** ** Data points, legend rows and connector lines in closed form *)

Lemma point_groups_r (ds : list entry) (fills : list string) :
  point_groups ds fills = points_r base_radius ds fills.
Proof.
  revert fills. induction ds as [|d ds IH]; intros [|c cs]; try reflexivity.
  simpl. now rewrite IH.
Qed.

Lemma points_r_ext (rho rho' : entry -> Q) (ds : list entry) (fills : list string) :
  (forall d, In d ds -> rho d = rho' d) ->
  points_r rho ds fills = points_r rho' ds fills.
Proof.
  revert fills. induction ds as [|d ds IH]; intros [|c cs] H; try reflexivity.
  simpl. rewrite (H d (or_introl eq_refl)), IH; [reflexivity|].
  intros x Hx. apply H. now right.
Qed.

(** An update of the inner circle of [d] that sets its radius. *)
Lemma update_dot_points (d : entry) (f : node -> node) (r : entry -> Q)
      (rho : entry -> Q) (ds : list entry) (fills : list string) :
  (forall x c, f (dot_circle_r (rho x) x c) = dot_circle_r (r x) x c) ->
  map (update (is_dot_of d) f) (points_r rho ds fills) =
    points_r (fun x => if Nat.eqb (oid x) (oid d) then r x else rho x) ds fills.
Proof.
  intros Hf. revert fills.
  induction ds as [|x ds IH]; intros [|c cs]; try reflexivity.
  cbn [points_r map]. rewrite IH. f_equal.
  rewrite update_unfold.
  change (is_dot_of d _) with false at 1. cbn iota.
  cbn [kids_of set_kids map]. f_equal. f_equal.
  rewrite update_unfold.
  change (is_dot_of d (dot_circle_r (rho x) x c)) with (Nat.eqb (oid x) (oid d)).
  destruct (Nat.eqb (oid x) (oid d)); [|reflexivity].
  now rewrite <- Hf.
Qed.

(** An element whose [class] attribute is the single token [w]. *)
Lemma matches_single (c w : string) t a s d b ks :
  assoc "class" a = Some (Str w) -> words w = [w] ->
  matches (Class c) (Elem t a s d b ks) = String.eqb c w.
Proof.
  intros Ha Hw. unfold matches, has_class, classes, attr. cbn [attrs_of].
  rewrite Ha, Hw. cbn [existsb]. apply orb_false_r.
Qed.

(** An element without a [class] attribute. *)
Lemma matches_classless (c : string) t a s d b ks :
  assoc "class" a = None -> matches (Class c) (Elem t a s d b ks) = false.
Proof.
  intros Ha. unfold matches, has_class, classes, attr. cbn [attrs_of].
  now rewrite Ha.
Qed.

Lemma select_points (c : string) (rho : entry -> Q) (ds : list entry)
      (fills : list string) :
  selectAll (Class c) (points_r rho ds fills) =
    if String.eqb c "dot" then dots_r rho ds fills
    else if String.eqb c "dot-glow" then glows ds fills
    else if String.eqb c "point-group" then points_r rho ds fills
    else [].
Proof.
  revert fills. induction ds as [|d ds IH]; intros [|x xs];
    try (now repeat destruct (String.eqb c _)).
  cbn [points_r dots_r glows]. rewrite selectAll_cons, IH. clear IH.
  rewrite select_unfold. cbn [kids_of].
  rewrite !selectAll_cons, !select_unfold, selectAll_nil.
  unfold dot_circle_r, glow_circle. cbn [kids_of].
  rewrite !selectAll_nil, !app_nil_r.
  rewrite (matches_single c "point-group"), (matches_single c "dot-glow"),
    (matches_single c "dot") by reflexivity.
  destruct (String.eqb c "dot") eqn:E1.
  { apply String.eqb_eq in E1. subst c. reflexivity. }
  destruct (String.eqb c "dot-glow") eqn:E2.
  { apply String.eqb_eq in E2. subst c. reflexivity. }
  destruct (String.eqb c "point-group") eqn:E3; reflexivity.
Qed.

Lemma select_legend (c : string) (i : nat) (ds : list entry) (fills : list string) :
  selectAll (Class c) (legend_items i ds fills) =
    if String.eqb c "legend-item" then legend_items i ds fills else [].
Proof.
  revert i fills. induction ds as [|d ds IH]; intros i [|x xs];
    try (now destruct (String.eqb c _)).
  cbn [legend_items]. rewrite selectAll_cons, IH. clear IH.
  unfold legend_item, swatch, label.
  rewrite select_unfold. cbn [kids_of].
  rewrite !selectAll_cons, !select_unfold, selectAll_nil. cbn [kids_of].
  rewrite !selectAll_nil, !app_nil_r.
  rewrite (matches_single c "legend-item") by reflexivity.
  destruct (String.eqb c "legend-item"); reflexivity.
Qed.

(** The join over a group that holds the lines of an earlier hover (or
    none): the lines are reused and overwritten, added or removed until
    there is one per datum. *)
Lemma join_lines (centerX centerY : Q) (stroke : string) (others : list entry)
      (cx cy : Q) (old : string) (items : list entry) :
  map (connection_line centerX centerY stroke)
      (join "line" (map (line_node cx cy old) items) others) =
    map (line_node centerX centerY stroke) others.
Proof.
  revert items. induction others as [|d ds IH]; intros items; [reflexivity|].
  destruct items as [|x xs]; cbn [map join].
  - specialize (IH []). cbn [map] in IH. rewrite IH. reflexivity.
  - rewrite (IH xs). reflexivity.
Qed.

Lemma select_lines (c : string) (centerX centerY : Q) (stroke : string)
      (others : list entry) :
  selectAll (Class c) (map (line_node centerX centerY stroke) others) =
    if String.eqb c "connection-line"
    then map (line_node centerX centerY stroke) others else [].
Proof.
  induction others as [|d ds IH]; [now destruct (String.eqb c _)|].
  cbn [map]. rewrite selectAll_cons, IH, select_unfold. unfold line_node.
  cbn [kids_of]. rewrite selectAll_nil, app_nil_r.
  rewrite (matches_single c "connection-line") by reflexivity.
  destruct (String.eqb c "connection-line"); reflexivity.
Qed.

(** ** Following a reference through the chart *)

Lemma is_dot_of_guarded (d : entry) : class_guarded "dot" (is_dot_of d).
Proof. intros n H. unfold is_dot_of. now rewrite H. Qed.

Lemma is_lineGroup_guarded : class_guarded "connections" is_lineGroup.
Proof. intros n H. exact H. Qed.

Lemma update_unselected (c : string) (p : node -> bool) (f : node -> node) (n : node) :
  class_guarded c p -> select (Class c) n = [] -> update p f n = n.
Proof.
  intros Hp. induction n as [t a s d b ks IH] using node_ind'. intros H.
  rewrite select_unfold in H. apply app_eq_nil in H. destruct H as [H0 H].
  rewrite update_unfold, Hp.
  2:{ change (has_class c ?m) with (matches (Class c) m).
      destruct (matches (Class c) (Elem t a s d b ks)); [discriminate H0|reflexivity]. }
  cbn [kids_of set_kids] in *. f_equal. clear H0.
  induction ks as [|k ks IHks]; [reflexivity|].
  inversion IH as [|? ? Hk Hks]; subst.
  rewrite selectAll_cons in H. apply app_eq_nil in H. destruct H as [H1 H2].
  cbn [map]. rewrite (Hk H1). f_equal. now apply IHks.
Qed.

Lemma map_update_unselected (c : string) (p : node -> bool) (f : node -> node)
      (l : list node) :
  class_guarded c p -> selectAll (Class c) l = [] -> map (update p f) l = l.
Proof.
  intros Hp. induction l as [|k ks IH]; [reflexivity|]. intros H.
  rewrite selectAll_cons in H. apply app_eq_nil in H. destruct H as [H1 H2].
  cbn [map]. now rewrite (update_unselected c p f k Hp H1), IH.
Qed.

(** An update through a reference to a data element reaches the lines,
    the points and the legend rows only. *)
Lemma update_chart (c : string) (p : node -> bool) (f : node -> node)
      (lines points rows : list node) :
  class_guarded c p -> In c data_classes ->
  map (update p f) [chart_of lines points rows] =
    [chart_of (map (update p f) lines) (map (update p f) points)
       (map (update p f) rows)].
Proof.
  intros Hp Hc.
  assert (Hfix : forall n, select (Class c) n = [] -> update p f n = n)
    by (intros n; now apply update_unselected).
  assert (Hno : forall t a s d b ks, assoc "class" a = None \/
                  assoc "class" a = Some (Str "connections") ->
                p (Elem t a s d b ks) = false).
  { intros t a s d b ks Ha. apply Hp.
    change (matches (Class c) (Elem t a s d b ks) = false).
    destruct Ha as [Ha|Ha].
    - now apply matches_classless.
    - rewrite (matches_single c "connections" t a s d b ks Ha eq_refl).
      simpl in Hc.
      repeat (destruct Hc as [<-|Hc]; [reflexivity|]). contradiction. }
  assert (Hleaf : forall n, In n [defs; gridX; gridY; axisX; axisY; title; subtitle] ->
                            update p f n = n).
  { intros n Hn. apply Hfix. simpl in Hc, Hn.
    repeat (destruct Hc as [<-|Hc];
            [repeat (destruct Hn as [<-|Hn]; [reflexivity|]); contradiction|]).
    contradiction. }
  unfold chart_of, svg_element, root_group, legend_group, lineGroup, element, set_kids.
  cbn [map]. rewrite update_unfold, Hno by (left; reflexivity).
  cbn [kids_of set_kids map]. rewrite update_unfold, Hno by (left; reflexivity).
  cbn [kids_of set_kids]. rewrite !map_app. cbn [map].
  rewrite (Hleaf defs), (Hleaf gridX), (Hleaf gridY), (Hleaf axisX),
    (Hleaf axisY), (Hleaf title), (Hleaf subtitle) by (simpl; tauto).
  rewrite (update_unfold p f (Elem "g" [("class", Str "connections")] _ _ _ _)),
    Hno by (right; reflexivity).
  rewrite (update_unfold p f (Elem "g" [("transform", _)] _ _ _ _)),
    Hno by (left; reflexivity).
  reflexivity.
Qed.

(** An update through [lineGroup] reaches the group of connector lines. *)
Lemma update_lineGroup (f : node -> node) (lines points rows : list node) :
  selectAll (Class "connections") lines = [] ->
  selectAll (Class "connections") points = [] ->
  selectAll (Class "connections") rows = [] ->
  map (update is_lineGroup f) [chart_of lines points rows] =
    [svg_element
       [root_group
          ([defs; gridX; gridY; axisX; axisY; f (set_kids lines lineGroup)]
             ++ points ++ [legend_group rows; title; subtitle])]].
Proof.
  intros Hl Hp Hr.
  assert (Hfix : forall n, select (Class "connections") n = [] ->
                           update is_lineGroup f n = n)
    by (intros n; apply update_unselected, is_lineGroup_guarded).
  unfold chart_of, svg_element, root_group, legend_group, lineGroup, element, set_kids.
  cbn [map]. rewrite update_unfold.
  change (is_lineGroup (Elem "svg" _ _ _ _ _)) with false. cbn iota.
  cbn [kids_of set_kids map]. rewrite update_unfold.
  change (is_lineGroup (Elem "g" [("transform", _)] _ _ _ _)) with false. cbn iota.
  cbn [kids_of set_kids]. rewrite !map_app. cbn [map].
  rewrite (Hfix defs), (Hfix gridX), (Hfix gridY), (Hfix axisX),
    (Hfix axisY), (Hfix title), (Hfix subtitle) by reflexivity.
  rewrite (update_unfold _ f (Elem "g" [("class", Str "connections")] _ _ _ _)).
  change (is_lineGroup (Elem "g" [("class", _)] _ _ _ _)) with true. cbn iota.
  rewrite (update_unfold _ f (Elem "g" [("transform", _)] _ _ _ _)).
  change (is_lineGroup (Elem "g" [("transform", _)] _ _ _ _)) with false. cbn iota.
  cbn [kids_of set_kids].
  now rewrite !(map_update_unselected "connections") by
    (assumption || apply is_lineGroup_guarded).
Qed.

(** ** The states of the page *)

Lemma draw_chart (data : Data) :
  draw data =
    (chart data [] base_radius,
     mkClosure data (processedData data) (drawn_domain data)).
Proof.
  rewrite draw_shape. cbv zeta. unfold chart, fill_colors, swatch_colors, drawn_domain.
  now rewrite point_groups_r.
Qed.

(** The effect on a page that has a container. *)
Lemma useEffect_draws (data : Data) (st : page) (container : list node) :
  chartRef st = Some container ->
  useEffect (Some data) st =
    mkPage (Some [chart data [] base_radius]) (body st)
      (Some (mkClosure data (processedData data) (drawn_domain data))).
Proof.
  intros H. unfold useEffect. rewrite H, remove_Any, draw_chart. reflexivity.
Qed.

Lemma chart_no_connections_in_points (rho : entry -> Q) (ds : list entry)
      (fills : list string) :
  selectAll (Class "connections") (points_r rho ds fills) = [].
Proof. now rewrite select_points. Qed.

Lemma chart_no_connections_in_rows (i : nat) (ds : list entry) (fills : list string) :
  selectAll (Class "connections") (legend_items i ds fills) = [].
Proof. now rewrite select_legend. Qed.

(** Pointer-enter on the [i]-th point of a chart, whatever lines an
    earlier hover left in it. *)
Lemma mouseover_chart (data : Data) (rho : entry -> Q) (dom : list string)
      (body0 : list node) (i : nat) (event : MouseEvent) (d : entry)
      (cx cy : Q) (old : string) (items : list entry) :
  nth_error (processedData data) i = Some d ->
  mouseover i event
    (mkPage (Some [chart data (map (line_node cx cy old) items) rho]) body0
       (Some (mkClosure data (processedData data) dom))) =
  mkPage (Some [chart data (hover_lines data dom d) (hover_radius d rho)])
    (body0 ++ [tooltip d event])
    (Some (mkClosure data (processedData data) (snd (colorScale dom (name d))))).
Proof.
  intros Hd. unfold mouseover. cbn [handlers chartRef cl_processedData body
    cl_colorScale cl_data]. rewrite Hd.
  destruct (colorScale dom (name d)) as [stroke dom'] eqn:Ecs.
  unfold chart at 1.
  rewrite (update_chart "dot") by (apply is_dot_of_guarded || (simpl; tauto)).
  rewrite (update_dot_points d _ (fun _ => calculateSize (strength d) * 1.2))
    by reflexivity.
  rewrite (map_update_unselected "dot" _ _ (legend_items _ _ _))
    by (apply is_dot_of_guarded || now rewrite select_legend).
  rewrite (map_update_unselected "dot" _ _ (map _ items))
    by (apply is_dot_of_guarded || now rewrite select_lines).
  rewrite update_lineGroup
    by ((now rewrite select_lines) || apply chart_no_connections_in_points
        || apply chart_no_connections_in_rows).
  unfold lineGroup, element. cbn [set_kids kids_of].
  rewrite select_lines, String.eqb_refl, join_lines.
  unfold hover_lines, others_of, chart, chart_of, hover_radius.
  rewrite Ecs. reflexivity.
Qed.

Lemma remove_app (sel : selector) (l1 l2 : list node) :
  remove sel (l1 ++ l2) = remove sel l1 ++ remove sel l2.
Proof. unfold remove. now rewrite map_app, filter_app. Qed.

Lemma remove_lines (centerX centerY : Q) (stroke : string) (others : list entry) :
  remove (Class "connection-line") (map (line_node centerX centerY stroke) others) = [].
Proof. induction others as [|d ds IH]; [reflexivity|exact IH]. Qed.

Lemma tooltip_is_absolute (d : entry) (event : MouseEvent) :
  matches (Class "absolute") (tooltip d event) = true.
Proof. reflexivity. Qed.

Lemma remove_tooltip (d : entry) (event : MouseEvent) :
  remove (Class "absolute") [tooltip d event] = [].
Proof. reflexivity. Qed.

Lemma chart_no_absolute (data : Data) (rho : entry -> Q) :
  selectAll (Class "absolute") [chart data [] rho] = [].
Proof.
  unfold chart. rewrite select_chart by (simpl; tauto).
  now rewrite select_points, select_legend.
Qed.

(** Pointer-leave on the [i]-th point of a chart that shows hover lines. *)
Lemma mouseout_chart (data : Data) (rho : entry -> Q) (cl : closure)
      (body0 : list node) (i : nat) (d : entry)
      (centerX centerY : Q) (stroke : string) (others : list entry) :
  cl_processedData cl = processedData data ->
  nth_error (processedData data) i = Some d ->
  mouseout i
    (mkPage (Some [chart data (map (line_node centerX centerY stroke) others) rho])
       body0 (Some cl)) =
  mkPage (Some [chart data [] (rest_radius d rho)])
    (remove (Class "absolute") body0) (Some cl).
Proof.
  intros Hcl Hd. unfold mouseout. cbn [handlers chartRef body].
  rewrite Hcl, Hd. unfold chart at 1.
  rewrite (update_chart "dot") by (apply is_dot_of_guarded || (simpl; tauto)).
  rewrite (update_dot_points d _ (fun x => calculateSize (strength x)))
    by reflexivity.
  rewrite (map_update_unselected "dot" _ _ (legend_items _ _ _))
    by (apply is_dot_of_guarded || now rewrite select_legend).
  rewrite (map_update_unselected "dot" _ _ (map _ others))
    by (apply is_dot_of_guarded || now rewrite select_lines).
  rewrite update_lineGroup
    by ((now rewrite select_lines) || apply chart_no_connections_in_points
        || apply chart_no_connections_in_rows).
  unfold lineGroup, element. cbn [set_kids remove_below].
  fold (remove (Class "connection-line") (map (line_node centerX centerY stroke) others)).
  rewrite remove_lines.
  change (svg_element _) with (chart data [] (rest_radius d rho)).
  now rewrite (remove_none _ _ (chart_no_absolute data _)).
Qed.

Lemma rest_after_hover (data : Data) (d : entry) :
  chart data [] (rest_radius d (hover_radius d base_radius)) =
  chart data [] base_radius.
Proof.
  unfold chart. f_equal. apply points_r_ext. intros x _.
  unfold rest_radius, hover_radius, base_radius.
  now destruct (Nat.eqb (oid x) (oid d)).
Qed.

(** ** The colour scale is stable *)

Lemma index_of_app (d : string) (dom ext : list string) (i : nat) :
  index_of d dom = Some i -> index_of d (dom ++ ext) = Some i.
Proof.
  revert i. induction dom as [|x dom IH]; intros i H; [discriminate H|].
  simpl in *. destruct (String.eqb x d); [exact H|].
  destruct (index_of d dom) as [j|]; [|discriminate H].
  now rewrite (IH j eq_refl).
Qed.

Lemma index_of_fresh (d : string) (dom ext : list string) :
  index_of d dom = None -> index_of d (dom ++ d :: ext) = Some (List.length dom).
Proof.
  induction dom as [|x dom IH]; intros H; simpl in *.
  - now rewrite String.eqb_refl.
  - destruct (String.eqb x d); [discriminate H|].
    destruct (index_of d dom); [discriminate H|]. now rewrite IH.
Qed.

(** Once a name has been given a colour, every later call returns that
    colour and leaves the domain as it is. *)
Lemma colorScale_stable (dom : list string) (d c : string) (dom1 : list string) :
  colorScale dom d = (c, dom1) ->
  (exists ext, dom1 = dom ++ ext) /\
  forall ext, colorScale (dom1 ++ ext) d = (c, dom1 ++ ext).
Proof.
  unfold colorScale, scaleOrdinal. destruct (index_of d dom) as [i|] eqn:E; intros H;
    injection H as <- <-.
  - split; [exists []; now rewrite app_nil_r|]. intros ext.
    now rewrite (index_of_app _ _ ext _ E).
  - split; [now exists [d]|]. intros ext.
    rewrite <- app_assoc. cbn [app]. now rewrite (index_of_fresh _ _ _ E).
Qed.

Lemma colors_stable (ds : list entry) (dom cs dom1 : list string) :
  colors dom ds = (cs, dom1) ->
  (exists ext, dom1 = dom ++ ext) /\
  forall ext, colors (dom1 ++ ext) ds = (cs, dom1 ++ ext).
Proof.
  revert dom cs dom1. induction ds as [|d ds IH]; intros dom cs dom1 H; simpl in H.
  - injection H as <- <-. split; [exists []; now rewrite app_nil_r|reflexivity].
  - destruct (colorScale dom (name d)) as [c dom'] eqn:E1.
    destruct (colors dom' ds) as [cs' dom''] eqn:E2. injection H as <- <-.
    destruct (colorScale_stable _ _ _ _ E1) as [[e1 He1] Hc].
    destruct (IH _ _ _ E2) as [[e2 He2] Hcs].
    split; [exists (e1 ++ e2); now rewrite He2, He1, app_assoc|].
    intros ext. simpl. rewrite He2, <- app_assoc, Hc, app_assoc, <- He2.
    now rewrite Hcs.
Qed.

(** The legend is coloured as the points are, and the second run of
    calls does not extend the domain. *)
Lemma swatch_colors_eq (data : Data) : swatch_colors data = fill_colors data.
Proof.
  unfold swatch_colors, fill_colors.
  destruct (colors [] (processedData data)) as [cs dom1] eqn:E.
  destruct (colors_stable _ _ _ _ E) as [_ H]. specialize (H []).
  rewrite app_nil_r in H. simpl. now rewrite H.
Qed.

Lemma drawn_domain_eq (data : Data) :
  drawn_domain data = snd (colors [] (processedData data)).
Proof.
  unfold drawn_domain.
  destruct (colors [] (processedData data)) as [cs dom1] eqn:E.
  destruct (colors_stable _ _ _ _ E) as [_ H]. specialize (H []).
  rewrite app_nil_r in H. simpl. now rewrite H.
Qed.

Lemma colors_nth (ds : list entry) (dom cs dom1 : list string) (i : nat) (d : entry) :
  colors dom ds = (cs, dom1) -> nth_error ds i = Some d ->
  exists c, nth_error cs i = Some c /\ colorScale dom1 (name d) = (c, dom1).
Proof.
  revert dom cs dom1 i. induction ds as [|x ds IH]; intros dom cs dom1 i H Hd.
  - destruct i; discriminate Hd.
  - simpl in H. destruct (colorScale dom (name x)) as [c dom'] eqn:E1.
    destruct (colors dom' ds) as [cs' dom''] eqn:E2. injection H as <- <-.
    destruct i as [|i]; simpl in Hd.
    + injection Hd as <-. exists c. split; [reflexivity|].
      destruct (colorScale_stable _ _ _ _ E1) as [_ Hc].
      destruct (colors_stable _ _ _ _ E2) as [[e He] _].
      rewrite He. apply Hc.
    + destruct (IH _ _ _ _ E2 Hd) as [c' [H1 H2]]. now exists c'.
Qed.

(** A hover finds the colour of its entry in the scale: the stroke of the
    lines is the fill of the point, and the domain stays as it is. *)
Lemma hover_color (data : Data) (i : nat) (d : entry) :
  nth_error (processedData data) i = Some d ->
  exists c, nth_error (fill_colors data) i = Some c /\
            colorScale (drawn_domain data) (name d) = (c, drawn_domain data).
Proof.
  intros Hd. rewrite drawn_domain_eq. unfold fill_colors.
  destruct (colors [] (processedData data)) as [cs dom1] eqn:E.
  apply (colors_nth _ _ _ _ _ _ E Hd).
Qed.

(** ** What a page shows *)

Lemma dots_r_nth (rho : entry -> Q) (ds : list entry) (fills : list string)
      (i : nat) (d : entry) (c : string) :
  nth_error ds i = Some d -> nth_error fills i = Some c ->
  nth_error (dots_r rho ds fills) i = Some (dot_circle_r (rho d) d c).
Proof.
  revert fills i. induction ds as [|x ds IH]; intros [|y ys] [|i] Hd Hc;
    try discriminate; simpl in *.
  - now injection Hd as ->; injection Hc as ->.
  - now apply IH.
Qed.

Lemma glows_nth (ds : list entry) (fills : list string) (i : nat) (d : entry) (c : string) :
  nth_error ds i = Some d -> nth_error fills i = Some c ->
  nth_error (glows ds fills) i = Some (glow_circle d).
Proof.
  revert fills i. induction ds as [|x ds IH]; intros [|y ys] [|i] Hd Hc;
    try discriminate; simpl in *.
  - now injection Hd as ->.
  - now apply IH.
Qed.

Lemma dots_chart (data : Data) (lines : list node) (rho : entry -> Q) :
  selectAll (Class "dot") lines = [] ->
  selectAll (Class "dot") [chart data lines rho] =
    dots_r rho (processedData data) (fill_colors data).
Proof.
  intros H. unfold chart. rewrite select_chart by (simpl; tauto).
  now rewrite H, select_points, select_legend, app_nil_r.
Qed.

(** The two circles the effect draws for the [i]-th entry of the mapping. *)
Lemma rendered_point (data : Data) (st : page) (i : nat) (key : string)
      (value : IdentityData) :
  chartRef st <> None -> nth_error data i = Some (key, value) ->
  let d := mkEntry i key (Strength value) value in
  exists fill,
    nth_error (fill_colors data) i = Some fill /\
    nth_error (dots (useEffect (Some data) st)) i = Some (dot_circle d fill) /\
    nth_error (glow_dots (useEffect (Some data) st)) i = Some (glow_circle d).
Proof.
  intros Hc Hi d. destruct (chartRef st) as [container|] eqn:E; [|contradiction].
  pose proof (processedData_nth _ _ _ _ Hi) as Hd. fold d in Hd.
  destruct (hover_color _ _ _ Hd) as [fill [Hf _]]. exists fill.
  rewrite (useEffect_draws _ _ _ E). unfold dots, glow_dots, chart_nodes.
  cbn [chartRef]. split; [exact Hf|]. split.
  - rewrite dots_chart by reflexivity. now rewrite (dots_r_nth _ _ _ _ _ _ Hd Hf).
  - unfold chart. rewrite select_chart by (simpl; tauto).
    rewrite select_points, select_legend. cbn [String.eqb Ascii.eqb Bool.eqb app].
    rewrite app_nil_r. apply (glows_nth _ _ _ _ _ Hd Hf).
Qed.

(** ** The other entries of a hovered entry *)

Lemma others_above (es : Data) (k j : nat) :
  (j < k)%nat ->
  filter (fun item => negb (Nat.eqb (oid item) j)) (process_from k es) =
    process_from k es.
Proof.
  revert k. induction es as [|[key value] es IH]; intros k H; [reflexivity|].
  simpl. destruct (Nat.eqb_spec k j) as [E|E]; [lia|]. simpl.
  now rewrite IH by lia.
Qed.

Lemma others_length (es : Data) (k j : nat) :
  (k <= j < k + List.length es)%nat ->
  List.length (filter (fun item => negb (Nat.eqb (oid item) j)) (process_from k es)) =
    (List.length es - 1)%nat.
Proof.
  revert k. induction es as [|[key value] es IH]; intros k H; simpl in *; [lia|].
  destruct (Nat.eqb_spec k j) as [E|E]; simpl.
  - rewrite others_above by lia. rewrite process_from_length. lia.
  - rewrite IH by lia. lia.
Qed.

Lemma others_of_length (data : Data) (i : nat) (d : entry) :
  nth_error (processedData data) i = Some d ->
  List.length (others_of data d) = (List.length data - 1)%nat.
Proof.
  intros Hd. unfold others_of, entry_neq.
  rewrite (processedData_oid _ _ _ Hd).
  apply others_length. assert (H : nth_error (processedData data) i <> None)
    by (now rewrite Hd).
  apply nth_error_Some in H. rewrite processedData_length in H. lia.
Qed.

Lemma lines_chart (data : Data) (lines : list node) (rho : entry -> Q) :
  selectAll (Class "connection-line") [chart data lines rho] =
    selectAll (Class "connection-line") lines.
Proof.
  unfold chart. rewrite select_chart by (simpl; tauto).
  now rewrite select_points, select_legend, app_nil_r.
Qed.

(** ** The pages that show a chart *)

Lemma drawn_shown (data : Data) (st : page) :
  chartRef st <> None ->
  useEffect (Some data) st = shown data [] base_radius (body st).
Proof.
  intros Hc. destruct (chartRef st) as [container|] eqn:E; [|contradiction].
  apply (useEffect_draws _ _ _ E).
Qed.

Lemma mouseover_shown (data : Data) (rho : entry -> Q) (rest : list node)
      (i : nat) (event : MouseEvent) (d : entry)
      (cx cy : Q) (old : string) (items : list entry) :
  nth_error (processedData data) i = Some d ->
  mouseover i event (shown data (map (line_node cx cy old) items) rho rest) =
    shown data (hover_lines data (drawn_domain data) d) (hover_radius d rho)
      (rest ++ [tooltip d event]).
Proof.
  intros Hd. unfold shown. rewrite (mouseover_chart _ _ _ _ _ _ _ _ _ _ _ Hd).
  destruct (hover_color _ _ _ Hd) as [c [_ Hcol]]. now rewrite Hcol.
Qed.

Lemma mouseout_shown (data : Data) (rho : entry -> Q) (rest : list node)
      (i : nat) (d : entry) (cx cy : Q) (old : string) (items : list entry) :
  nth_error (processedData data) i = Some d ->
  mouseout i (shown data (map (line_node cx cy old) items) rho rest) =
    shown data [] (rest_radius d rho) (remove (Class "absolute") rest).
Proof.
  intros Hd. unfold shown.
  now rewrite (mouseout_chart data _
                 (mkClosure data (processedData data) (drawn_domain data))
                 _ _ _ _ _ _ _ eq_refl Hd).
Qed.

(** Off the chart no handler runs. *)
Lemma no_point (data : Data) (lines : list node) (rho : entry -> Q)
      (rest : list node) (i : nat) (event : MouseEvent) :
  nth_error (processedData data) i = None ->
  mouseover i event (shown data lines rho rest) = shown data lines rho rest /\
  mouseout i (shown data lines rho rest) = shown data lines rho rest.
Proof.
  intros H. unfold mouseover, mouseout, shown.
  cbn [handlers chartRef cl_processedData]. now rewrite H.
Qed.

(** Every page that shows the chart of [data] holds that chart, with the
    lines of at most one hover and some radii for the inner circles. *)
Lemma shows_shape (data : Data) (s : page) :
  shows data s ->
  exists cx cy stroke items rho rest,
    s = shown data (map (line_node cx cy stroke) items) rho rest.
Proof.
  induction 1 as [st Hc | s i event _ IH | s i _ IH].
  - exists 0, 0, "", [], base_radius, (body st). now apply drawn_shown.
  - destruct IH as (cx & cy & stroke & items & rho & rest & ->).
    destruct (nth_error (processedData data) i) as [d|] eqn:Hd.
    + rewrite (mouseover_shown _ _ _ _ _ _ _ _ _ _ Hd). unfold hover_lines.
      now eexists _, _, _, _, _, _.
    + rewrite (proj1 (no_point _ _ _ _ _ event Hd)).
      now eexists _, _, _, _, _, _.
  - destruct IH as (cx & cy & stroke & items & rho & rest & ->).
    destruct (nth_error (processedData data) i) as [d|] eqn:Hd.
    + rewrite (mouseout_shown _ _ _ _ _ _ _ _ _ Hd).
      now exists 0, 0, "", [], (rest_radius d rho), (remove (Class "absolute") rest).
    + rewrite (proj2 (no_point _ _ _ _ _ (mkMouseEvent 0 0) Hd)).
      now eexists _, _, _, _, _, _.
Qed.

(** The inner circle of the [i]-th entry on a page that shows the chart. *)
Lemma shown_dot (data : Data) (lines : list node) (rho : entry -> Q)
      (rest : list node) (i : nat) (d : entry) :
  selectAll (Class "dot") lines = [] ->
  nth_error (processedData data) i = Some d ->
  exists fill,
    nth_error (dots (shown data lines rho rest)) i = Some (dot_circle_r (rho d) d fill).
Proof.
  intros Hl Hd. destruct (hover_color _ _ _ Hd) as [fill [Hf _]]. exists fill.
  unfold dots, chart_nodes, shown. cbn [chartRef].
  rewrite dots_chart by exact Hl. apply (dots_r_nth _ _ _ _ _ _ Hd Hf).
Qed.

Lemma shown_lines (data : Data) (lines : list node) (rho : entry -> Q)
      (rest : list node) :
  connection_lines (shown data lines rho rest) =
    selectAll (Class "connection-line") lines.
Proof. unfold connection_lines, chart_nodes, shown. cbn [chartRef]. apply lines_chart. Qed.

(** ** Elements anywhere in a document *)

Lemma select_Any_in (sel : selector) (m n : node) :
  In m (select Any n) -> matches sel m = true -> In m (select sel n).
Proof.
  induction n as [t a s d b ks IH] using node_ind'. intros Hin Hm.
  rewrite select_unfold in Hin |- *. cbn [matches kids_of] in Hin.
  apply in_app_or in Hin. apply in_or_app. destruct Hin as [[<-|[]]|Hin].
  - left. rewrite Hm. now left.
  - right. cbn [kids_of]. unfold selectAll in *.
    apply in_flat_map in Hin. destruct Hin as [k [Hk Hin]].
    apply in_flat_map. exists k. split; [exact Hk|].
    rewrite Forall_forall in IH. now apply IH.
Qed.

Lemma selectAll_Any_in (sel : selector) (m : node) (l : list node) :
  In m (selectAll Any l) -> matches sel m = true -> In m (selectAll sel l).
Proof.
  unfold selectAll. intros Hin Hm. apply in_flat_map in Hin.
  destruct Hin as [k [Hk Hin]]. apply in_flat_map. exists k.
  split; [exact Hk|]. now apply select_Any_in.
Qed.

(** Where a selector selects nothing, it matches no element. *)
Lemma nothing_selected (sel : selector) (l : list node) (m : node) :
  selectAll sel l = [] -> In m (selectAll Any l) -> matches sel m = false.
Proof.
  intros H Hin. destruct (matches sel m) eqn:E; [|reflexivity].
  pose proof (selectAll_Any_in sel m l Hin E) as Hm. rewrite H in Hm. destruct Hm.
Qed.

Lemma left_no_absolute (data : Data) (rho : entry -> Q) (rest : list node) :
  selectAll (Class "absolute")
    (document (shown data [] rho (remove (Class "absolute") rest))) = [].
Proof.
  unfold document, shown. cbn [chartRef body].
  now rewrite selectAll_app, chart_no_absolute, selectAll_remove.
Qed.

Lemma selected_matches (sel : selector) (m n : node) :
  In m (select sel n) -> matches sel m = true.
Proof.
  induction n as [t a s d b ks IH] using node_ind'. intros Hin.
  rewrite select_unfold in Hin. apply in_app_or in Hin. destruct Hin as [Hin|Hin].
  - destruct (matches sel (Elem t a s d b ks)) eqn:E; [|destruct Hin].
    destruct Hin as [<-|[]]. exact E.
  - cbn [kids_of] in Hin. unfold selectAll in Hin. apply in_flat_map in Hin.
    destruct Hin as [k [Hk Hin]]. rewrite Forall_forall in IH. now apply (IH k).
Qed.

Lemma selectAll_matches (sel : selector) (m : node) (l : list node) :
  In m (selectAll sel l) -> matches sel m = true.
Proof.
  unfold selectAll. intros Hin. apply in_flat_map in Hin.
  destruct Hin as [k [_ Hin]]. now apply (selected_matches sel m k).
Qed.

Lemma legend_rows_chart (data : Data) (rho : entry -> Q) :
  selectAll (Class "legend-item") [chart data [] rho] =
    legend_items 0 (processedData data) (swatch_colors data).
Proof.
  unfold chart. rewrite select_chart by (simpl; tauto).
  now rewrite select_points, select_legend.
Qed.

Lemma swatches_legend (i : nat) (ds : list entry) (fills : list string) :
  flat_map (fun row => filter (fun k => String.eqb (tag_of k) "rect") (kids_of row))
    (legend_items i ds fills) = swatches_of ds fills.
Proof.
  revert i fills. induction ds as [|d ds IH]; intros i [|c cs]; try reflexivity.
  cbn [legend_items flat_map swatches_of]. rewrite IH. reflexivity.
Qed.

Lemma swatches_of_nth (ds : list entry) (fills : list string) (i : nat)
      (d : entry) (c : string) :
  nth_error ds i = Some d -> nth_error fills i = Some c ->
  nth_error (swatches_of ds fills) i = Some (swatch d c).
Proof.
  revert fills i. induction ds as [|x ds IH]; intros [|y ys] [|i] Hd Hc;
    try discriminate; simpl in *.
  - now injection Hd as ->; injection Hc as ->.
  - now apply IH.
Qed.

(* ================================================================= *)
(** * Examples *)

(** The worked example of the spec, [{A: {Strength: 3}, B: {Strength:
    10}}]: A is drawn at [scale(3)] on each axis with the base size 7, and
    B at the centre of the plot with size 12.6. *)
Example worked_example :
  exists A B,
    dots (useEffect (Some example_data) empty_page) = [A; B] /\
    attr "cx" A = Some (Num (xScale 3)) /\ attr "cy" A = Some (Num (yScale 3)) /\
    attr "r" A = Some (Num 7) /\
    attr "cx" B = Some (Num (xScale 0)) /\ attr "cy" B = Some (Num (yScale 0)) /\
    attr "r" B = Some (Num (7 * 1.8)) /\
    xScale 3 == 442 /\ yScale 3 == 203 /\ xScale 0 == 340 /\ yScale 0 == 290 /\
    7 * 1.8 == 12.6.
Proof.
  exists (dot_circle (mkEntry 0 "A" 3 (mkIdentityData 3 None None None)) "#8dd3c7"),
    (dot_circle (mkEntry 1 "B" 10 (mkIdentityData 10 None None None)) "#ffffb3").
  repeat split; reflexivity.
Qed.

(** The palette has twelve colours: the thirteenth entry is coloured as
    the first, in the chart and in the legend. *)
Example palette_wraps :
  nth_error (map (style "fill") (dots (useEffect (Some thirteen) empty_page))) 12
    = Some (Some (Str "#8dd3c7")) /\
  map (style "fill") (swatches (useEffect (Some thirteen) empty_page))
    = map (style "fill") (dots (useEffect (Some thirteen) empty_page)).
Proof. split; reflexivity. Qed.

(** A hover over B while the line of a hover over A is still shown: the
    line is reused, and it now starts at B and ends at A. *)
Example hover_after_hover :
  let rendered := useEffect (Some example_data) empty_page in
  let event := mkMouseEvent 100 100 in
  map (attr "x1") (connection_lines (mouseover 0 event rendered))
    = [Some (Num (xScale 3))] /\
  map (fun line => (attr "x1" line, attr "x2" line))
      (connection_lines (mouseover 1 event (mouseover 0 event rendered)))
    = [(Some (Num (xScale 0)), Some (Num (xScale 3)))] /\
  List.length (body (mouseover 1 event (mouseover 0 event rendered))) = 2%nat /\
  body (mouseout 1 (mouseover 1 event (mouseover 0 event rendered))) = [].
Proof. repeat split; reflexivity. Qed.

(** A re-render clears the container only: the tooltip that a hover
    appended to the document is still there when the effect has run
    again, until some pointer-leave removes it. *)
Example tooltip_outlives_rerender :
  let event := mkMouseEvent 100 100 in
  let hovered := mouseover 0 event (useEffect (Some example_data) empty_page) in
  let again := useEffect (Some thirteen) hovered in
  body again = [tooltip (mkEntry 0 "A" 3 (mkIdentityData 3 None None None)) event] /\
  connection_lines again = [] /\
  body (mouseout 5 again) = [].
Proof. repeat split; reflexivity. Qed.

(* ================================================================= *)
(** * The claims *)

(** C1.  For every entry of the mapping the effect draws an inner circle
    and a glow circle whose [cx] is [calculatePosition(strength, xScale)]
    and whose [cy] is [calculatePosition(strength, yScale)]: the same
    transform on both axes.  The transform is tiered: a strength equal to
    10 goes to [scale(0)], which is the centre of the plot; a strength
    from 5 up to, but not including, 10 goes to [scale(v / 2)]; a strength
    below 5 goes to [scale(v)]. *)
Theorem position_is_tiered (data : Data) (st : page) (i : nat) (key : string)
        (value : IdentityData) :
  chartRef st <> None -> nth_error data i = Some (key, value) ->
  let v := Strength value in
  exists glow dot,
    nth_error (glow_dots (useEffect (Some data) st)) i = Some glow /\
    nth_error (dots (useEffect (Some data) st)) i = Some dot /\
    (forall circle, In circle [glow; dot] ->
       datum_of circle = Some (mkEntry i key v value) /\
       attr "cx" circle = Some (Num (calculatePosition v xScale)) /\
       attr "cy" circle = Some (Num (calculatePosition v yScale))) /\
    (forall scale : ScaleLinear,
       (v == 10 -> calculatePosition v scale = scale 0) /\
       (5 <= v /\ v < 10 -> calculatePosition v scale = scale (v / 2)) /\
       (v < 5 -> calculatePosition v scale = scale v)) /\
    xScale 0 == width / 2 /\ yScale 0 == height / 2.
Proof.
  intros Hc Hi v.
  destruct (rendered_point data st i key value Hc Hi) as [fill [_ [Hdot Hglow]]].
  exists (glow_circle (mkEntry i key v value)), (dot_circle (mkEntry i key v value) fill).
  split; [exact Hglow|]. split; [exact Hdot|]. split; [|split; [|split]].
  - intros circle [<-|[<-|[]]]; repeat split; reflexivity.
  - intros scale. split; [apply calculatePosition_max|]. split.
    + intros [H5 H10]. apply calculatePosition_high; [exact H5|].
      intros E. rewrite E in H10. discriminate H10.
    + apply calculatePosition_low.
  - rewrite xScale_eq. reflexivity.
  - rewrite yScale_eq. reflexivity.
Qed.

Lemma position_is_tiered_witness :
  exists dot,
    nth_error (dots (useEffect (Some example_data) empty_page)) 1 = Some dot /\
    attr "cx" dot = Some (Num (calculatePosition 10 xScale)) /\
    calculatePosition 10 xScale = xScale 0.
Proof.
  destruct (position_is_tiered example_data empty_page 1 "B"
              (mkIdentityData 10 None None None))
    as [glow [dot [_ [Hdot [Hpos [Htier _]]]]]].
  - discriminate.
  - reflexivity.
  - exists dot. split; [exact Hdot|]. split.
    + apply (Hpos dot). right. left. reflexivity.
    + apply (Htier xScale). reflexivity.
Defined.



(** C3.  On a page that shows the chart of a mapping of [N] entries, a
    hover over the [i]-th entry draws exactly [N - 1] connector lines,
    one bound to each other entry and ending at that entry's position;
    every line starts at the position of the hovered point (its [x1] and
    [y1] are the [cx] and [cy] of that point).  After the pointer-leave
    no connector line remains. *)
Theorem hover_draws_lines (data : Data) (s : page) (i : nat) (key : string)
        (value : IdentityData) (event : MouseEvent) :
  shows data s -> nth_error data i = Some (key, value) ->
  let hovered := mouseover i event s in
  exists A cx cy,
    nth_error (dots s) i = Some A /\
    attr "cx" A = Some cx /\ attr "cy" A = Some cy /\
    List.length (connection_lines hovered) = (List.length data - 1)%nat /\
    map datum_of (connection_lines hovered) =
      map Some (filter (fun item => negb (Nat.eqb (oid item) i)) (processedData data)) /\
    Forall (fun line =>
              attr "x1" line = Some cx /\ attr "y1" line = Some cy /\
              exists item, datum_of line = Some item /\
                attr "x2" line = Some (Num (calculatePosition (strength item) xScale)) /\
                attr "y2" line = Some (Num (calculatePosition (strength item) yScale)))
           (connection_lines hovered) /\
    connection_lines (mouseout i hovered) = [].
Proof.
  intros Hs Hi hovered.
  pose proof (processedData_nth _ _ _ _ Hi) as Hd.
  set (d := mkEntry i key (Strength value) value) in *.
  destruct (shows_shape _ _ Hs) as (cx0 & cy0 & stroke & items & rho & rest & ->).
  destruct (shown_dot data (map (line_node cx0 cy0 stroke) items) rho rest i d)
    as [fill Hdot]; [now rewrite select_lines|exact Hd|].
  assert (Hh : hovered = shown data (hover_lines data (drawn_domain data) d)
                           (hover_radius d rho) (rest ++ [tooltip d event]))
    by apply (mouseover_shown _ _ _ _ _ _ _ _ _ _ Hd).
  exists (dot_circle_r (rho d) d fill), (Num (calculatePosition (strength d) xScale)),
    (Num (calculatePosition (strength d) yScale)).
  split; [exact Hdot|]. split; [reflexivity|]. split; [reflexivity|].
  assert (Hlines : connection_lines hovered = hover_lines data (drawn_domain data) d).
  { rewrite Hh, shown_lines. unfold hover_lines. now rewrite select_lines. }
  rewrite Hlines. unfold hover_lines. split; [|split; [|split]].
  - rewrite length_map. apply (others_of_length _ _ _ Hd).
  - rewrite map_map. unfold others_of, entry_neq. cbn [datum_of line_node oid d].
    reflexivity.
  - apply Forall_forall. intros line Hl. apply in_map_iff in Hl.
    destruct Hl as [item [<- _]]. split; [reflexivity|]. split; [reflexivity|].
    exists item. repeat split; reflexivity.
  - rewrite Hh. unfold hover_lines. rewrite (mouseout_shown _ _ _ _ _ _ _ _ _ Hd).
    now rewrite shown_lines.
Qed.

Lemma hover_draws_lines_witness :
  List.length
    (connection_lines
       (mouseover 0 (mkMouseEvent 100 100) (useEffect (Some example_data) empty_page)))
    = 1%nat /\
  connection_lines
    (mouseout 0
       (mouseover 0 (mkMouseEvent 100 100) (useEffect (Some example_data) empty_page)))
    = [].
Proof.
  destruct (hover_draws_lines example_data (useEffect (Some example_data) empty_page)
              0 "A" (mkIdentityData 3 None None None) (mkMouseEvent 100 100))
    as [A [cx [cy [_ [_ [_ [Hn [_ [_ Hout]]]]]]]]].
  - apply shows_drawn. discriminate.
  - reflexivity.
  - split; [exact Hn|exact Hout].
Defined.




(** C6.  A re-render clears the container before it draws: whatever the
    container held (the chart of another mapping included), it holds
    afterwards the [svg] element drawn for the new mapping and nothing
    else.  Hence running the effect twice for the same mapping leaves
    the page as running it once. *)
Theorem rerender_is_clean (data previous : Data) (st : page) :
  chartRef st <> None ->
  chartRef (useEffect (Some data) st) = Some [fst (draw data)] /\
  chartRef (useEffect (Some data) (useEffect (Some previous) st))
    = Some [fst (draw data)] /\
  useEffect (Some data) (useEffect (Some data) st) = useEffect (Some data) st.
Proof.
  intros Hc. destruct (chartRef st) as [container|] eqn:E; [|contradiction].
  rewrite (useEffect_draws data _ _ E), (useEffect_draws previous _ _ E).
  rewrite (useEffect_draws data (mkPage (Some [chart previous [] base_radius]) _ _)
             [chart previous [] base_radius] eq_refl).
  rewrite (useEffect_draws data (mkPage (Some [chart data [] base_radius]) _ _)
             [chart data [] base_radius] eq_refl).
  rewrite draw_chart. repeat split.
Qed.

Lemma rerender_is_clean_witness :
  chartRef (useEffect (Some example_data)
              (mkPage (Some [element "p" [] []; element "svg" [] []]) [] None))
    = Some [fst (draw example_data)].
Proof.
  apply (rerender_is_clean example_data []
           (mkPage (Some [element "p" [] []; element "svg" [] []]) [] None)).
  discriminate.
Defined.

(** C7.  The effects of a hover are transient and touch the view only.
    On a page that shows the chart, the mapping and the processed entries
    that the handlers close over are the same before the hover, after
    pointer-enter and after pointer-leave.  While the pointer is over the
    point its radius is 1.2 times its size; after pointer-leave the
    radius is [calculateSize(strength)] again, no connector line is left
    and the tooltip that pointer-enter appended to the document is gone.
    When the hover started on the chart as the effect drew it, the
    container holds that chart again. *)
Theorem hover_is_transient (data : Data) (s : page) (i : nat) (key : string)
        (value : IdentityData) (event : MouseEvent) :
  shows data s -> nth_error data i = Some (key, value) ->
  let d := mkEntry i key (Strength value) value in
  let hovered := mouseover i event s in
  let after := mouseout i hovered in
  (forall p, In p [s; hovered; after] ->
     option_map cl_data (handlers p) = Some data /\
     option_map cl_processedData (handlers p) = Some (processedData data)) /\
  (exists dot, nth_error (dots hovered) i = Some dot /\
     attr "r" dot = Some (Num (calculateSize (Strength value) * 1.2))) /\
  (exists dot, nth_error (dots after) i = Some dot /\
     datum_of dot = Some d /\
     attr "r" dot = Some (Num (calculateSize (Strength value)))) /\
  connection_lines after = [] /\
  In (tooltip d event) (body hovered) /\
  ~ In (tooltip d event) (selectAll Any (document after)) /\
  (forall st, chartRef st <> None -> s = useEffect (Some data) st ->
              chartRef after = chartRef s).
Proof.
  intros Hs Hi d hovered after.
  pose proof (processedData_nth _ _ _ _ Hi) as Hd. fold d in Hd.
  assert (Hfresh : forall st, chartRef st <> None -> s = useEffect (Some data) st ->
                              chartRef after = chartRef s).
  { intros st Hc ->. unfold after, hovered. rewrite (drawn_shown _ _ Hc).
    change (shown data [] base_radius (body st))
      with (shown data (map (line_node 0 0 "") []) base_radius (body st)) at 1.
    rewrite (mouseover_shown data base_radius (body st) i event d 0 0 "" [] Hd).
    unfold hover_lines. rewrite (mouseout_shown _ _ _ _ _ _ _ _ _ Hd).
    unfold shown. cbn [chartRef]. now rewrite rest_after_hover. }
  destruct (shows_shape _ _ Hs) as (cx0 & cy0 & stroke & items & rho & rest & ->).
  assert (Hh : hovered = shown data (hover_lines data (drawn_domain data) d)
                           (hover_radius d rho) (rest ++ [tooltip d event]))
    by apply (mouseover_shown _ _ _ _ _ _ _ _ _ _ Hd).
  assert (Ho : after = shown data [] (rest_radius d (hover_radius d rho))
                         (remove (Class "absolute") (rest ++ [tooltip d event]))).
  { unfold after. rewrite Hh. unfold hover_lines.
    apply (mouseout_shown _ _ _ _ _ _ _ _ _ Hd). }
  split; [|split; [|split; [|split; [|split; [|split]]]]].
  - intros p [<-|[<-|[<-|[]]]]; [|rewrite Hh|rewrite Ho]; split; reflexivity.
  - destruct (shown_dot data (hover_lines data (drawn_domain data) d)
                (hover_radius d rho) (rest ++ [tooltip d event]) i d)
      as [fill Hdot]; [unfold hover_lines; now rewrite select_lines|exact Hd|].
    rewrite <- Hh in Hdot. eexists. split; [exact Hdot|].
    unfold hover_radius. now rewrite Nat.eqb_refl.
  - destruct (shown_dot data [] (rest_radius d (hover_radius d rho))
                (remove (Class "absolute") (rest ++ [tooltip d event])) i d)
      as [fill Hdot]; [reflexivity|exact Hd|].
    rewrite <- Ho in Hdot. eexists. split; [exact Hdot|].
    unfold rest_radius. rewrite Nat.eqb_refl. split; reflexivity.
  - now rewrite Ho, shown_lines.
  - rewrite Hh. unfold shown. cbn [body]. apply in_or_app. right. now left.
  - intros Hin. rewrite Ho in Hin.
    pose proof (nothing_selected _ _ _ (left_no_absolute _ _ _) Hin) as Hm.
    rewrite tooltip_is_absolute in Hm. discriminate Hm.
  - exact Hfresh.
Qed.

Lemma hover_is_transient_witness :
  exists dot,
    nth_error
      (dots (mouseout 1
               (mouseover 1 (mkMouseEvent 100 100)
                  (useEffect (Some example_data) empty_page)))) 1 = Some dot /\
    attr "r" dot = Some (Num (calculateSize 10)).
Proof.
  destruct (hover_is_transient example_data (useEffect (Some example_data) empty_page)
              1 "B" (mkIdentityData 10 None None None) (mkMouseEvent 100 100))
    as [_ [_ [[dot [Hdot [_ Hr]]] _]]].
  - apply shows_drawn. discriminate.
  - reflexivity.
  - exists dot. split; [exact Hdot|exact Hr].
Defined.

(** C8.  For every entry the fill of its legend swatch is the fill of its
    inner circle: both are what the colour scale of the render returns
    for the entry's name, and the scale still returns that colour when
    the effect has run. *)
Theorem legend_color_matches_point (data : Data) (st : page) (i : nat)
        (key : string) (value : IdentityData) :
  chartRef st <> None -> nth_error data i = Some (key, value) ->
  let d := mkEntry i key (Strength value) value in
  let rendered := useEffect (Some data) st in
  exists dot rect fill,
    nth_error (dots rendered) i = Some dot /\
    nth_error (swatches rendered) i = Some rect /\
    datum_of dot = Some d /\ datum_of rect = Some d /\
    style "fill" dot = Some (Str fill) /\
    style "fill" rect = Some (Str fill) /\
    nth_error (fst (colors [] (processedData data))) i = Some fill /\
    fst (colorScale (drawn_domain data) key) = fill.
Proof.
  intros Hc Hi d rendered.
  destruct (rendered_point data st i key value Hc Hi) as [fill [Hf [Hdot _]]].
  fold d in Hdot. fold rendered in Hdot.
  pose proof (processedData_nth _ _ _ _ Hi) as Hd. fold d in Hd.
  exists (dot_circle d fill), (swatch d fill), fill.
  split; [exact Hdot|]. split.
  - destruct (chartRef st) as [container|] eqn:E; [|contradiction].
    unfold swatches, legend_rows, chart_nodes, rendered.
    rewrite (useEffect_draws _ _ _ E). cbn [chartRef].
    rewrite legend_rows_chart, swatches_legend, swatch_colors_eq.
    apply (swatches_of_nth _ _ _ _ _ Hd Hf).
  - repeat split; try reflexivity; [exact Hf|].
    destruct (hover_color _ _ _ Hd) as [c [Hc' Hcol]].
    rewrite Hf in Hc'. injection Hc' as <-.
    change key with (name d). now rewrite Hcol.
Qed.

Lemma legend_color_matches_point_witness :
  exists dot rect,
    nth_error (dots (useEffect (Some example_data) empty_page)) 1 = Some dot /\
    nth_error (swatches (useEffect (Some example_data) empty_page)) 1 = Some rect /\
    style "fill" dot = Some (Str "#ffffb3") /\
    style "fill" rect = Some (Str "#ffffb3").
Proof.
  destruct (legend_color_matches_point example_data empty_page 1 "B"
              (mkIdentityData 10 None None None))
    as [dot [rect [fill [Hdot [Hrect [_ [_ [H1 [H2 [Hf _]]]]]]]]]].
  - discriminate.
  - reflexivity.
  - exists dot, rect. injection Hf as <-. repeat split; assumption.
Defined.

(** C9.  The pointer-leave handler removes every element of the document
    whose class list contains [absolute], not the tooltip alone: on a
    page that shows the chart, after a hover and the pointer-leave that
    follows, the rest of the document is what it was with all such
    elements (and what they contain) detached, so no element that was in
    the document with that class is in it any more. *)
Theorem mouseout_removes_every_absolute (data : Data) (s : page) (i : nat)
        (key : string) (value : IdentityData) (event : MouseEvent) :
  shows data s -> nth_error data i = Some (key, value) ->
  let after := mouseout i (mouseover i event s) in
  body after = remove (Class "absolute") (body s) /\
  selectAll (Class "absolute") (document after) = [] /\
  (forall n, In n (selectAll (Class "absolute") (body s)) ->
             ~ In n (selectAll Any (document after))).
Proof.
  intros Hs Hi after.
  pose proof (processedData_nth _ _ _ _ Hi) as Hd.
  set (d := mkEntry i key (Strength value) value) in *.
  destruct (shows_shape _ _ Hs) as (cx0 & cy0 & stroke & items & rho & rest & ->).
  assert (Ho : after = shown data [] (rest_radius d (hover_radius d rho))
                         (remove (Class "absolute") rest)).
  { unfold after. rewrite (mouseover_shown _ _ _ _ event _ _ _ _ _ Hd).
    unfold hover_lines. rewrite (mouseout_shown _ _ _ _ _ _ _ _ _ Hd).
    now rewrite remove_app, remove_tooltip, app_nil_r. }
  rewrite Ho. split; [reflexivity|].
  split; [apply left_no_absolute|].
  intros n Hn Hin.
  pose proof (nothing_selected _ _ _ (left_no_absolute _ _ _) Hin) as Hm.
  unfold shown in Hn. cbn [body] in Hn.
  rewrite (selectAll_matches _ _ _ Hn) in Hm. discriminate Hm.
Qed.

Lemma mouseout_removes_every_absolute_witness :
  body (mouseout 0
          (mouseover 0 (mkMouseEvent 100 100)
             (useEffect (Some example_data) page_with_overlays)))
    = [ Elem "nav" [("class", Str "relative")] [] None NoContent [] ].
Proof.
  destruct (mouseout_removes_every_absolute example_data
              (useEffect (Some example_data) page_with_overlays) 0 "A"
              (mkIdentityData 3 None None None) (mkMouseEvent 100 100))
    as [Hbody _].
  - apply shows_drawn. discriminate.
  - reflexivity.
  - rewrite Hbody. reflexivity.
Defined.



(* ================================================================= *)
(** * Further properties of the code *)

(** ** More on the pages that show a chart *)

Lemma fill_colors_length (data : Data) :
  List.length (fill_colors data) = List.length data.
Proof.
  unfold fill_colors. rewrite <- (processedData_length data).
  generalize (processedData data) as ds. generalize (@nil string) as dom.
  intros dom ds. revert dom. induction ds as [|d ds IH]; intros dom; [reflexivity|].
  simpl. destruct (colorScale dom (name d)) as [c dom1].
  specialize (IH dom1). destruct (colors dom1 ds) as [cs dom2]. simpl in *.
  now rewrite IH.
Qed.

(** A page that shows the chart holds no connector line, or the lines of
    a hover over one entry. *)
Lemma shows_lines (data : Data) (s : page) :
  shows data s ->
  exists rho rest,
    s = shown data [] rho rest \/
    exists i d, nth_error (processedData data) i = Some d /\
                s = shown data (hover_lines data (drawn_domain data) d) rho rest.
Proof.
  induction 1 as [st Hc | s i event _ IH | s i _ IH].
  - exists base_radius, (body st). left. now apply drawn_shown.
  - destruct IH as (rho & rest & IH).
    destruct (nth_error (processedData data) i) as [d|] eqn:Hd.
    + exists (hover_radius d rho), (rest ++ [tooltip d event]). right. exists i, d.
      split; [exact Hd|]. destruct IH as [-> | (j & x & _ & ->)].
      * apply (mouseover_shown data rho rest i event d 0 0 "" [] Hd).
      * unfold hover_lines at 1. apply (mouseover_shown _ _ _ _ _ _ _ _ _ _ Hd).
    + exists rho, rest. destruct IH as [-> | (j & x & Hx & ->)].
      * left. apply (no_point _ _ _ _ _ event Hd).
      * right. exists j, x. split; [exact Hx|]. apply (no_point _ _ _ _ _ event Hd).
  - destruct IH as (rho & rest & IH).
    destruct (nth_error (processedData data) i) as [d|] eqn:Hd.
    + exists (rest_radius d rho), (remove (Class "absolute") rest). left.
      destruct IH as [-> | (j & x & _ & ->)].
      * apply (mouseout_shown data rho rest i d 0 0 "" [] Hd).
      * unfold hover_lines. apply (mouseout_shown _ _ _ _ _ _ _ _ _ Hd).
    + exists rho, rest. destruct IH as [-> | (j & x & Hx & ->)].
      * left. apply (no_point _ _ _ _ _ (mkMouseEvent 0 0) Hd).
      * right. exists j, x. split; [exact Hx|].
        apply (no_point _ _ _ _ _ (mkMouseEvent 0 0) Hd).
Qed.

Lemma dots_r_at (rho : entry -> Q) (ds : list entry) (fills : list string) (j : nat) :
  nth_error (dots_r rho ds fills) j =
    match nth_error ds j, nth_error fills j with
    | Some d, Some c => Some (dot_circle_r (rho d) d c)
    | _, _ => None
    end.
Proof.
  revert fills j. induction ds as [|x ds IH]; intros [|y ys] [|j]; try reflexivity.
  - simpl. now destruct (nth_error ds j).
  - simpl. apply IH.
Qed.

Lemma dots_r_length (rho : entry -> Q) (ds : list entry) (fills : list string) :
  List.length fills = List.length ds ->
  List.length (dots_r rho ds fills) = List.length ds.
Proof.
  revert fills. induction ds as [|x ds IH]; intros [|y ys] H; try discriminate;
    [reflexivity|]. simpl in *. now rewrite IH by lia.
Qed.

Lemma glows_length (ds : list entry) (fills : list string) :
  List.length fills = List.length ds -> List.length (glows ds fills) = List.length ds.
Proof.
  revert fills. induction ds as [|x ds IH]; intros [|y ys] H; try discriminate;
    [reflexivity|]. simpl in *. now rewrite IH by lia.
Qed.

Lemma points_r_length (rho : entry -> Q) (ds : list entry) (fills : list string) :
  List.length fills = List.length ds ->
  List.length (points_r rho ds fills) = List.length ds.
Proof.
  revert fills. induction ds as [|x ds IH]; intros [|y ys] H; try discriminate;
    [reflexivity|]. simpl in *. now rewrite IH by lia.
Qed.

Lemma legend_items_length (i : nat) (ds : list entry) (fills : list string) :
  List.length fills = List.length ds ->
  List.length (legend_items i ds fills) = List.length ds.
Proof.
  revert i fills. induction ds as [|x ds IH]; intros i [|y ys] H; try discriminate;
    [reflexivity|]. simpl in *. now rewrite IH by lia.
Qed.

Lemma swatches_of_length (ds : list entry) (fills : list string) :
  List.length fills = List.length ds ->
  List.length (swatches_of ds fills) = List.length ds.
Proof.
  revert fills. induction ds as [|x ds IH]; intros [|y ys] H; try discriminate;
    [reflexivity|]. simpl in *. now rewrite IH by lia.
Qed.

Lemma legend_items_at (i : nat) (ds : list entry) (fills : list string) (j : nat)
      (d : entry) (c : string) :
  nth_error ds j = Some d -> nth_error fills j = Some c ->
  nth_error (legend_items i ds fills) j = Some (legend_item (i + j) d c).
Proof.
  revert i fills j. induction ds as [|x ds IH]; intros i [|y ys] [|j] Hd Hc;
    try discriminate; simpl in *.
  - injection Hd as ->. injection Hc as ->. now rewrite Nat.add_0_r.
  - rewrite (IH (S i) ys j Hd Hc). now rewrite Nat.add_succ_r.
Qed.

(** The lines of a hover carry the classes of connector lines only. *)
Lemma hover_lines_select (c : string) (data : Data) (dom : list string) (d : entry) :
  selectAll (Class c) (hover_lines data dom d) =
    if String.eqb c "connection-line" then hover_lines data dom d else [].
Proof. unfold hover_lines. apply select_lines. Qed.

(** What a page that shows the chart holds, by class. *)
Lemma shown_select (c : string) (data : Data) (lines : list node)
      (rho : entry -> Q) (rest : list node) :
  In c data_classes ->
  selectAll (Class c) (chart_nodes (shown data lines rho rest)) =
    selectAll (Class c) lines
      ++ selectAll (Class c) (points_r rho (processedData data) (fill_colors data))
      ++ selectAll (Class c)
           (legend_items 0 (processedData data) (swatch_colors data)).
Proof.
  intros H. unfold chart_nodes, shown, chart. cbn [chartRef].
  now apply select_chart.
Qed.

Lemma shown_dots (data : Data) (lines : list node) (rho : entry -> Q)
      (rest : list node) :
  selectAll (Class "dot") lines = [] ->
  dots (shown data lines rho rest) =
    dots_r rho (processedData data) (fill_colors data).
Proof.
  intros H. unfold dots. rewrite shown_select by (simpl; tauto).
  now rewrite H, select_points, select_legend, app_nil_r.
Qed.

Lemma shown_glows (data : Data) (lines : list node) (rho : entry -> Q)
      (rest : list node) :
  selectAll (Class "dot-glow") lines = [] ->
  glow_dots (shown data lines rho rest) =
    glows (processedData data) (fill_colors data).
Proof.
  intros H. unfold glow_dots. rewrite shown_select by (simpl; tauto).
  now rewrite H, select_points, select_legend, app_nil_r.
Qed.

Lemma shown_groups (data : Data) (lines : list node) (rho : entry -> Q)
      (rest : list node) :
  selectAll (Class "point-group") lines = [] ->
  point_group_nodes (shown data lines rho rest) =
    points_r rho (processedData data) (fill_colors data).
Proof.
  intros H. unfold point_group_nodes. rewrite shown_select by (simpl; tauto).
  now rewrite H, select_points, select_legend, app_nil_r.
Qed.

Lemma shown_rows (data : Data) (lines : list node) (rho : entry -> Q)
      (rest : list node) :
  selectAll (Class "legend-item") lines = [] ->
  legend_rows (shown data lines rho rest) =
    legend_items 0 (processedData data) (fill_colors data).
Proof.
  intros H. unfold legend_rows. rewrite shown_select by (simpl; tauto).
  now rewrite H, select_points, select_legend, swatch_colors_eq.
Qed.

Lemma shown_swatches (data : Data) (lines : list node) (rho : entry -> Q)
      (rest : list node) :
  selectAll (Class "legend-item") lines = [] ->
  swatches (shown data lines rho rest) =
    swatches_of (processedData data) (fill_colors data).
Proof.
  intros H. unfold swatches. rewrite (shown_rows _ _ _ _ H). apply swatches_legend.
Qed.

Lemma fills_length (data : Data) :
  List.length (fill_colors data) = List.length (processedData data).
Proof. now rewrite fill_colors_length, processedData_length. Qed.

(** ** The processed entries *)



(** X2.  On every page that shows the chart of a mapping of [N] entries,
    whatever hovers came before, there are exactly [N] point groups, [N]
    glow circles, [N] inner circles, [N] legend rows and [N] swatches,
    and the connector lines are none or [N - 1]. *)
Theorem element_counts (data : Data) (s : page) :
  shows data s ->
  let N := List.length data in
  List.length (point_group_nodes s) = N /\
  List.length (glow_dots s) = N /\
  List.length (dots s) = N /\
  List.length (legend_rows s) = N /\
  List.length (swatches s) = N /\
  (connection_lines s = [] \/
   (0 < N)%nat /\ List.length (connection_lines s) = (N - 1)%nat).
Proof.
  intros Hs N. pose proof (fills_length data) as Hf.
  pose proof (processedData_length data) as Hn. fold N in Hn.
  destruct (shows_lines _ _ Hs) as (rho & rest & [-> | (i & d & Hd & ->)]).
  - rewrite shown_groups, shown_glows, shown_dots, shown_rows, shown_swatches
      by reflexivity.
    rewrite points_r_length, glows_length, dots_r_length, legend_items_length,
      swatches_of_length by exact Hf.
    repeat split; try exact Hn. left. now rewrite shown_lines.
  - rewrite shown_groups, shown_glows, shown_dots, shown_rows, shown_swatches
      by now rewrite hover_lines_select.
    rewrite points_r_length, glows_length, dots_r_length, legend_items_length,
      swatches_of_length by exact Hf.
    repeat split; try exact Hn. right.
    rewrite shown_lines, hover_lines_select, String.eqb_refl. unfold hover_lines.
    rewrite length_map, (others_of_length _ _ _ Hd). split; [|reflexivity].
    assert (H : nth_error (processedData data) i <> None) by (now rewrite Hd).
    apply nth_error_Some in H. lia.
Qed.

Lemma element_counts_witness :
  List.length
    (dots (mouseover 1 (mkMouseEvent 5 5)
             (mouseout 0 (useEffect (Some example_data) empty_page)))) = 2%nat.
Proof.
  apply (element_counts example_data
           (mouseover 1 (mkMouseEvent 5 5)
              (mouseout 0 (useEffect (Some example_data) empty_page)))).
  apply shows_mouseover, shows_mouseout, shows_drawn. discriminate.
Defined.

(** ** Sizes and positions *)

Lemma calculateSize_values (v : Q) :
  calculateSize v = 7 \/ calculateSize v = 7 * 1.4 \/ calculateSize v = 7 * 1.8.
Proof.
  unfold calculateSize. destruct (Qeq_bool v 10); [now right; right|].
  destruct (Qle_bool 5 v); [now right; left|now left].
Qed.

Lemma calculateSize_positive (v : Q) : 0 < calculateSize v.
Proof. destruct (calculateSize_values v) as [-> | [-> | ->]]; reflexivity. Qed.


(** X3.  The two circles of an entry are concentric, and the radius of
    the glow circle is twice the radius of the inner circle, which is
    positive; the radius 1.2 times the size that a hover gives the inner
    circle lies strictly between the two. *)
Theorem glow_is_concentric (data : Data) (st : page) (i : nat) (key : string)
        (value : IdentityData) :
  chartRef st <> None -> nth_error data i = Some (key, value) ->
  exists glow dot r,
    nth_error (glow_dots (useEffect (Some data) st)) i = Some glow /\
    nth_error (dots (useEffect (Some data) st)) i = Some dot /\
    attr "cx" glow = attr "cx" dot /\ attr "cy" glow = attr "cy" dot /\
    attr "r" dot = Some (Num r) /\ attr "r" glow = Some (Num (r * 2)) /\
    r = calculateSize (Strength value) /\
    0 < r /\ r < r * 1.2 /\ r * 1.2 < r * 2.
Proof.
  intros Hc Hi.
  destruct (rendered_point data st i key value Hc Hi) as [fill [_ [Hdot Hglow]]].
  eexists _, _, (calculateSize (Strength value)).
  split; [exact Hglow|]. split; [exact Hdot|].
  pose proof (calculateSize_positive (Strength value)) as Hpos.
  repeat split; try reflexivity; lra.
Qed.

Lemma glow_is_concentric_witness :
  exists glow dot,
    nth_error (glow_dots (useEffect (Some example_data) empty_page)) 0 = Some glow /\
    nth_error (dots (useEffect (Some example_data) empty_page)) 0 = Some dot /\
    attr "cx" glow = attr "cx" dot /\
    attr "r" glow = Some (Num (calculateSize 3 * 2)).
Proof.
  destruct (glow_is_concentric example_data empty_page 0 "A"
              (mkIdentityData 3 None None None))
    as (glow & dot & r & Hg & Hd & Hx & _ & _ & Hr & -> & _).
  - discriminate.
  - reflexivity.
  - exists glow, dot. repeat split; assumption.
Defined.






(** X7.  The size helper has three values only, and the largest is kept
    for a strength of exactly 10: a strength above 10 gets the middle
    size again, which is smaller than the size of a strength of 10. *)
Theorem size_above_ten (v : Q) :
  (calculateSize v = 7 \/ calculateSize v = 7 * 1.4 \/ calculateSize v = 7 * 1.8) /\
  (10 < v -> calculateSize v = 7 * 1.4 /\ calculateSize v < calculateSize 10) /\
  (calculateSize v == calculateSize 10 -> v == 10).
Proof.
  split; [apply calculateSize_values|]. split.
  - intros H. rewrite calculateSize_high by lra. split; reflexivity.
  - intros H. destruct (Qeq_dec v 10) as [E|E]; [exact E|]. exfalso.
    destruct (Qlt_le_dec v 5) as [L|L].
    + rewrite (calculateSize_low _ L) in H. discriminate H.
    + rewrite (calculateSize_high _ L E) in H. discriminate H.
Qed.

(** ** The legend and the colours *)

(** X8.  The legend has its rows in the order of the mapping: the row of
    the [i]-th entry is moved down by [i * 25], is bound to that entry,
    and holds a swatch and then a text that reads the entry's name. *)
Theorem legend_row_of_entry (data : Data) (st : page) (i : nat) (key : string)
        (value : IdentityData) :
  chartRef st <> None -> nth_error data i = Some (key, value) ->
  exists row rect caption,
    nth_error (legend_rows (useEffect (Some data) st)) i = Some row /\
    attr "transform" row = Some (translate 0 (inject_Z (Z.of_nat i) * 25)) /\
    datum_of row = Some (mkEntry i key (Strength value) value) /\
    kids_of row = [rect; caption] /\
    tag_of rect = "rect" /\ tag_of caption = "text" /\
    content_of caption = Text (Str key).
Proof.
  intros Hc Hi. pose proof (processedData_nth _ _ _ _ Hi) as Hd.
  destruct (hover_color _ _ _ Hd) as [fill [Hf _]].
  rewrite (drawn_shown _ _ Hc), shown_rows by reflexivity.
  rewrite (legend_items_at 0 _ _ _ _ _ Hd Hf).
  eexists _, _, _. repeat split.
Qed.

Lemma legend_row_of_entry_witness :
  exists row,
    nth_error (legend_rows (useEffect (Some example_data) empty_page)) 1 = Some row /\
    attr "transform" row = Some (translate 0 (inject_Z 1 * 25)).
Proof.
  destruct (legend_row_of_entry example_data empty_page 1 "B"
              (mkIdentityData 10 None None None))
    as (row & _ & _ & Hrow & Ht & _).
  - discriminate.
  - reflexivity.
  - exists row. split; assumption.
Defined.

Lemma index_of_absent (d : string) (dom : list string) :
  ~ In d dom -> index_of d dom = None.
Proof.
  induction dom as [|x dom IH]; intros H; [reflexivity|]. simpl.
  destruct (String.eqb_spec x d) as [E|E]; [exfalso; apply H; now left|].
  rewrite IH; [reflexivity|]. intros Hin. apply H. now right.
Qed.

(** A run of calls for distinct new names hands out the palette in
    order, from the size of the domain on. *)
Lemma colors_in_order (ds : list entry) (dom : list string) (i : nat) (d : entry) :
  NoDup (dom ++ map name ds) -> nth_error ds i = Some d ->
  nth_error (fst (colors dom ds)) i =
    Some (nth ((List.length dom + i) mod List.length schemeSet3) schemeSet3 "").
Proof.
  revert dom i. induction ds as [|x ds IH]; intros dom i Hnd Hd.
  - destruct i; discriminate Hd.
  - cbn [colors map] in *. unfold colorScale at 1, scaleOrdinal.
    rewrite index_of_absent.
    2:{ intros Hin. apply NoDup_remove_2 in Hnd. apply Hnd. apply in_or_app. now left. }
    specialize (IH (dom ++ [name x])).
    destruct (colors (dom ++ [name x]) ds) as [cs dom2]. cbn [fst] in *.
    destruct i as [|i]; cbn [nth_error] in *.
    + now rewrite Nat.add_0_r.
    + rewrite (IH i); [|now rewrite <- app_assoc|exact Hd].
      rewrite length_app. cbn [List.length].
      now replace (List.length dom + 1 + i)%nat with (List.length dom + S i)%nat by lia.
Qed.

Lemma processed_names (data : Data) :
  map name (processedData data) = map fst data.
Proof.
  unfold processedData. generalize 0%nat.
  induction data as [|[key value] es IH]; intros i; [reflexivity|].
  simpl. now rewrite IH.
Qed.

(** X9.  When the names of the mapping are distinct, as the keys of an
    object are, the colours follow the order of the mapping: the inner
    circle of the [i]-th entry is filled with colour [i mod 12] of the
    palette, so every thirteenth entry repeats a colour. *)
Theorem color_by_index (data : Data) (st : page) (i : nat) (key : string)
        (value : IdentityData) :
  chartRef st <> None -> NoDup (map fst data) ->
  nth_error data i = Some (key, value) ->
  exists dot,
    nth_error (dots (useEffect (Some data) st)) i = Some dot /\
    style "fill" dot = Some (Str (nth (i mod 12) schemeSet3 "")).
Proof.
  intros Hc Hnd Hi. pose proof (processedData_nth _ _ _ _ Hi) as Hd.
  assert (Hf : nth_error (fill_colors data) i = Some (nth (i mod 12) schemeSet3 "")).
  { assert (Hnd' : NoDup ([] ++ map name (processedData data)))
      by (cbn [app]; now rewrite processed_names).
    unfold fill_colors. rewrite (colors_in_order _ [] i _ Hnd' Hd). reflexivity. }
  rewrite (drawn_shown _ _ Hc), shown_dots by reflexivity.
  rewrite dots_r_at, Hd, Hf. eexists. split; reflexivity.
Qed.

Lemma color_by_index_witness :
  exists dot,
    nth_error (dots (useEffect (Some thirteen) empty_page)) 12 = Some dot /\
    style "fill" dot = Some (Str "#8dd3c7").
Proof.
  destruct (color_by_index thirteen empty_page 12 "m" (mkIdentityData 1 None None None))
    as (dot & Hdot & Hfill).
  - discriminate.
  - repeat constructor; simpl; intuition discriminate.
  - reflexivity.
  - exists dot. split; assumption.
Defined.

(** ** More on hovers *)

(** The inner circles of a page that shows the chart, whatever lines it
    holds. *)
Lemma shape_dots (data : Data) (rho : entry -> Q) (rest : list node)
      (cx cy : Q) (stroke : string) (items : list entry) :
  dots (shown data (map (line_node cx cy stroke) items) rho rest) =
    dots_r rho (processedData data) (fill_colors data).
Proof. apply shown_dots. now rewrite select_lines. Qed.

Lemma shape_glows (data : Data) (rho : entry -> Q) (rest : list node)
      (cx cy : Q) (stroke : string) (items : list entry) :
  glow_dots (shown data (map (line_node cx cy stroke) items) rho rest) =
    glows (processedData data) (fill_colors data).
Proof. apply shown_glows. now rewrite select_lines. Qed.

Lemma shape_rows (data : Data) (rho : entry -> Q) (rest : list node)
      (cx cy : Q) (stroke : string) (items : list entry) :
  legend_rows (shown data (map (line_node cx cy stroke) items) rho rest) =
    legend_items 0 (processedData data) (fill_colors data).
Proof. apply shown_rows. now rewrite select_lines. Qed.

Lemma shape_swatches (data : Data) (rho : entry -> Q) (rest : list node)
      (cx cy : Q) (stroke : string) (items : list entry) :
  swatches (shown data (map (line_node cx cy stroke) items) rho rest) =
    swatches_of (processedData data) (fill_colors data).
Proof. apply shown_swatches. now rewrite select_lines. Qed.

(** X10.  The connector lines of a hover are [line] elements drawn in the
    colour of the hovered point: the stroke of every line is the fill of
    the inner circle of the hovered entry, one pixel wide and with
    opacity 0.2; the hover leaves the colour scale as it was. *)
Theorem lines_take_the_hovered_color (data : Data) (s : page) (i : nat)
        (key : string) (value : IdentityData) (event : MouseEvent) :
  shows data s -> nth_error data i = Some (key, value) ->
  exists A fill,
    nth_error (dots s) i = Some A /\
    style "fill" A = Some (Str fill) /\
    Forall (fun line =>
              tag_of line = "line" /\
              style "stroke" line = Some (Str fill) /\
              style "stroke-width" line = Some (Str "1px") /\
              style "stroke-opacity" line = Some (Str "0.2"))
           (connection_lines (mouseover i event s)) /\
    handlers (mouseover i event s) = handlers s.
Proof.
  intros Hs Hi. pose proof (processedData_nth _ _ _ _ Hi) as Hd.
  set (d := mkEntry i key (Strength value) value) in *.
  destruct (hover_color _ _ _ Hd) as [fill [Hf Hcol]].
  destruct (shows_shape _ _ Hs) as (cx0 & cy0 & stroke & items & rho & rest & ->).
  exists (dot_circle_r (rho d) d fill), fill.
  rewrite shape_dots, dots_r_at, Hd, Hf.
  rewrite (mouseover_shown _ _ _ _ _ _ _ _ _ _ Hd), shown_lines, hover_lines_select.
  rewrite String.eqb_refl. unfold hover_lines. rewrite Hcol.
  repeat split. apply Forall_forall. intros line Hl. apply in_map_iff in Hl.
  destruct Hl as [item [<- _]]. repeat split.
Qed.

Lemma lines_take_the_hovered_color_witness :
  Forall (fun line => style "stroke" line = Some (Str "#ffffb3"))
    (connection_lines
       (mouseover 1 (mkMouseEvent 5 5) (useEffect (Some example_data) empty_page))).
Proof.
  destruct (lines_take_the_hovered_color example_data
              (useEffect (Some example_data) empty_page) 1 "B"
              (mkIdentityData 10 None None None) (mkMouseEvent 5 5))
    as (A & fill & HA & Hfill & Hlines & _).
  - apply shows_drawn. discriminate.
  - reflexivity.
  - injection HA as <-. injection Hfill as <-.
    apply (Forall_impl _ (fun line H => proj1 (proj2 H)) Hlines).
Defined.

Lemma mouseover_body (data : Data) (s : page) (i : nat) (event : MouseEvent)
      (d : entry) :
  shows data s -> nth_error (processedData data) i = Some d ->
  body (mouseover i event s) = body s ++ [tooltip d event].
Proof.
  intros Hs Hd.
  destruct (shows_shape _ _ Hs) as (cx0 & cy0 & stroke & items & rho & rest & ->).
  now rewrite (mouseover_shown _ _ _ _ _ _ _ _ _ _ Hd).
Qed.

Lemma mouseout_body (data : Data) (s : page) (i : nat) (d : entry) :
  shows data s -> nth_error (processedData data) i = Some d ->
  body (mouseout i s) = remove (Class "absolute") (body s).
Proof.
  intros Hs Hd.
  destruct (shows_shape _ _ Hs) as (cx0 & cy0 & stroke & items & rho & rest & ->).
  now rewrite (mouseout_shown _ _ _ _ _ _ _ _ _ Hd).
Qed.

Lemma mouseovers_shows (data : Data) (i : nat) (events : list MouseEvent) (s : page) :
  shows data s -> shows data (mouseovers i events s).
Proof.
  unfold mouseovers. revert s. induction events as [|e es IH]; intros s Hs;
    [exact Hs|]. simpl. apply IH. now apply shows_mouseover.
Qed.

Lemma mouseovers_body (data : Data) (i : nat) (d : entry)
      (events : list MouseEvent) (s : page) :
  shows data s -> nth_error (processedData data) i = Some d ->
  body (mouseovers i events s) = body s ++ map (tooltip d) events.
Proof.
  intros Hs Hd. unfold mouseovers. revert s Hs.
  induction events as [|e es IH]; intros s Hs; simpl; [now rewrite app_nil_r|].
  rewrite IH by now apply shows_mouseover.
  now rewrite (mouseover_body _ _ _ _ _ Hs Hd), <- app_assoc.
Qed.

Lemma remove_tooltips (d : entry) (events : list MouseEvent) :
  remove (Class "absolute") (map (tooltip d) events) = [].
Proof. induction events as [|e es IH]; [reflexivity|exact IH]. Qed.

(** X11.  Every pointer-enter appends one tooltip to the end of the
    document, placed 10 to the right of and 10 above the pointer, and
    nothing but a pointer-leave removes it: pointer-enters that are not
    followed by a pointer-leave pile their tooltips up, and then one
    pointer-leave removes them all. *)
Theorem tooltips_pile_up (data : Data) (s : page) (i : nat) (key : string)
        (value : IdentityData) (events : list MouseEvent) :
  shows data s -> nth_error data i = Some (key, value) ->
  let d := mkEntry i key (Strength value) value in
  body (mouseovers i events s) = body s ++ map (tooltip d) events /\
  (forall event,
     tag_of (tooltip d event) = "div" /\
     has_class "absolute" (tooltip d event) = true /\
     style "left" (tooltip d event) = Some (Tpl [Val (pageX event + 10); Lit "px"]) /\
     style "top" (tooltip d event) = Some (Tpl [Val (pageY event - 10); Lit "px"])) /\
  body (mouseout i (mouseovers i events s)) = remove (Class "absolute") (body s).
Proof.
  intros Hs Hi d. pose proof (processedData_nth _ _ _ _ Hi) as Hd. fold d in Hd.
  split; [apply (mouseovers_body _ _ _ _ _ Hs Hd)|]. split; [repeat split|].
  rewrite (mouseout_body data _ i d (mouseovers_shows _ _ _ _ Hs) Hd).
  rewrite (mouseovers_body _ _ _ _ _ Hs Hd), remove_app, remove_tooltips.
  apply app_nil_r.
Qed.

Lemma tooltips_pile_up_witness :
  List.length
    (body (mouseovers 0 [mkMouseEvent 1 1; mkMouseEvent 2 2; mkMouseEvent 3 3]
             (useEffect (Some example_data) empty_page))) = 3%nat /\
  body (mouseout 0
          (mouseovers 0 [mkMouseEvent 1 1; mkMouseEvent 2 2; mkMouseEvent 3 3]
             (useEffect (Some example_data) empty_page))) = [].
Proof.
  destruct (tooltips_pile_up example_data (useEffect (Some example_data) empty_page)
              0 "A" (mkIdentityData 3 None None None)
              [mkMouseEvent 1 1; mkMouseEvent 2 2; mkMouseEvent 3 3])
    as (Hb & _ & Ho).
  - apply shows_drawn. discriminate.
  - reflexivity.
  - split; [now rewrite Hb|exact Ho].
Defined.

(** The inner circle of the [j]-th entry keeps its radius when the radii
    change for another entry only. *)
Lemma dots_r_other (data : Data) (rho rho' : entry -> Q) (i j : nat) :
  j <> i ->
  (forall x, oid x <> i -> rho' x = rho x) ->
  nth_error (dots_r rho' (processedData data) (fill_colors data)) j =
    nth_error (dots_r rho (processedData data) (fill_colors data)) j.
Proof.
  intros Hj Hrho. rewrite !dots_r_at.
  destruct (nth_error (processedData data) j) as [x|] eqn:Hx; [|reflexivity].
  destruct (nth_error (fill_colors data) j); [|reflexivity].
  rewrite Hrho; [reflexivity|]. now rewrite (processedData_oid _ _ _ Hx).
Qed.

(** X12.  A pointer-enter and a pointer-leave change the radius of the
    inner circle they are dispatched on and nothing else of the points
    and the legend: the glow circles, the legend rows and the swatches
    stay as they are, and so does the inner circle of every other
    entry. *)
Theorem hover_touches_one_circle (data : Data) (s : page) (i : nat) (key : string)
        (value : IdentityData) (event : MouseEvent) :
  shows data s -> nth_error data i = Some (key, value) ->
  forall p, In p [mouseover i event s; mouseout i s] ->
    glow_dots p = glow_dots s /\
    legend_rows p = legend_rows s /\
    swatches p = swatches s /\
    (forall j, j <> i -> nth_error (dots p) j = nth_error (dots s) j).
Proof.
  intros Hs Hi p Hp. pose proof (processedData_nth _ _ _ _ Hi) as Hd.
  set (d := mkEntry i key (Strength value) value) in *.
  destruct (shows_shape _ _ Hs) as (cx0 & cy0 & stroke & items & rho & rest & ->).
  destruct Hp as [<- | [<- | []]].
  - rewrite (mouseover_shown _ _ _ _ _ _ _ _ _ _ Hd). unfold hover_lines.
    rewrite !shape_glows, !shape_rows, !shape_swatches, !shape_dots.
    repeat split. intros j Hj. apply (dots_r_other data _ _ i j Hj).
    intros x Hx. unfold hover_radius. cbn [oid d].
    destruct (Nat.eqb_spec (oid x) i); [contradiction|reflexivity].
  - rewrite (mouseout_shown _ _ _ _ _ _ _ _ _ Hd).
    rewrite shown_glows, shown_rows, shown_swatches, shown_dots by reflexivity.
    rewrite !shape_glows, !shape_rows, !shape_swatches, !shape_dots.
    repeat split. intros j Hj. apply (dots_r_other data _ _ i j Hj).
    intros x Hx. unfold rest_radius. cbn [oid d].
    destruct (Nat.eqb_spec (oid x) i); [contradiction|reflexivity].
Qed.

Lemma hover_touches_one_circle_witness :
  nth_error
    (dots (mouseover 0 (mkMouseEvent 5 5) (useEffect (Some example_data) empty_page))) 1
  = nth_error (dots (useEffect (Some example_data) empty_page)) 1.
Proof.
  destruct (hover_touches_one_circle example_data
              (useEffect (Some example_data) empty_page) 0 "A"
              (mkIdentityData 3 None None None) (mkMouseEvent 5 5))
    with (p := mouseover 0 (mkMouseEvent 5 5) (useEffect (Some example_data) empty_page))
    as (_ & _ & _ & H).
  - apply shows_drawn. discriminate.
  - reflexivity.
  - left. reflexivity.
  - apply H. discriminate.
Defined.

(** X13.  A pointer-leave restores the circle it is dispatched on only.
    When the pointer entered the [i]-th point and the pointer-leave that
    follows is dispatched on another point [j], the lines and the tooltip
    of the hover are removed all the same, but the [i]-th circle keeps
    the radius of the hover, 1.2 times its size. *)
Theorem leave_elsewhere (data : Data) (s : page) (i j : nat) (key : string)
        (value : IdentityData) (event : MouseEvent) :
  shows data s -> nth_error data i = Some (key, value) ->
  (j < List.length data)%nat -> j <> i ->
  let after := mouseout j (mouseover i event s) in
  (exists dot, nth_error (dots after) i = Some dot /\
     attr "r" dot = Some (Num (calculateSize (Strength value) * 1.2))) /\
  connection_lines after = [] /\
  selectAll (Class "absolute") (document after) = [].
Proof.
  intros Hs Hi Hj Hne after. pose proof (processedData_nth _ _ _ _ Hi) as Hd.
  set (d := mkEntry i key (Strength value) value) in *.
  destruct (nth_error (processedData data) j) as [x|] eqn:Hx.
  2:{ apply nth_error_None in Hx. rewrite processedData_length in Hx. lia. }
  destruct (hover_color _ _ _ Hd) as [fill [Hf _]].
  destruct (shows_shape _ _ Hs) as (cx0 & cy0 & stroke & items & rho & rest & ->).
  unfold after. rewrite (mouseover_shown _ _ _ _ _ _ _ _ _ _ Hd). unfold hover_lines.
  rewrite (mouseout_shown _ _ _ _ _ _ _ _ _ Hx).
  rewrite remove_app, remove_tooltip, app_nil_r.
  split; [|split].
  - rewrite shown_dots, dots_r_at, Hd, Hf by reflexivity.
    eexists. split; [reflexivity|]. cbn [attr attrs_of dot_circle_r assoc String.eqb
      Ascii.eqb Bool.eqb]. unfold rest_radius, hover_radius.
    rewrite (processedData_oid _ _ _ Hx). cbn [oid d].
    destruct (Nat.eqb_spec i j) as [E|E]; [now subst|]. now rewrite Nat.eqb_refl.
  - now rewrite shown_lines.
  - apply left_no_absolute.
Qed.

Lemma leave_elsewhere_witness :
  exists dot,
    nth_error
      (dots (mouseout 1
               (mouseover 0 (mkMouseEvent 5 5)
                  (useEffect (Some example_data) empty_page)))) 0 = Some dot /\
    attr "r" dot = Some (Num (calculateSize 3 * 1.2)).
Proof.
  destruct (leave_elsewhere example_data (useEffect (Some example_data) empty_page)
              0 1 "A" (mkIdentityData 3 None None None) (mkMouseEvent 5 5))
    as (H & _).
  - apply shows_drawn. discriminate.
  - reflexivity.
  - simpl. lia.
  - discriminate.
  - exact H.
Defined.

(** X14.  The connector lines of a hover are decided by the hovered
    entry alone: on any two pages that show the chart, whatever hovers
    came before on either and wherever the pointer is, a pointer-enter
    on the [i]-th point leaves the same lines. *)
Theorem lines_forget_history (data : Data) (s s' : page) (i : nat) (key : string)
        (value : IdentityData) (event event' : MouseEvent) :
  shows data s -> shows data s' -> nth_error data i = Some (key, value) ->
  connection_lines (mouseover i event s) = connection_lines (mouseover i event' s').
Proof.
  intros Hs Hs' Hi. pose proof (processedData_nth _ _ _ _ Hi) as Hd.
  destruct (shows_shape _ _ Hs) as (cx0 & cy0 & stroke & items & rho & rest & ->).
  destruct (shows_shape _ _ Hs') as (cx1 & cy1 & stroke1 & items1 & rho1 & rest1 & ->).
  rewrite !(mouseover_shown _ _ _ _ _ _ _ _ _ _ Hd). now rewrite !shown_lines.
Qed.

Lemma lines_forget_history_witness :
  connection_lines
    (mouseover 0 (mkMouseEvent 5 5)
       (mouseover 1 (mkMouseEvent 7 7) (useEffect (Some example_data) empty_page)))
  = connection_lines
      (mouseover 0 (mkMouseEvent 9 9) (useEffect (Some example_data) empty_page)).
Proof.
  apply (lines_forget_history example_data _ _ 0 "A" (mkIdentityData 3 None None None)).
  - apply shows_mouseover, shows_drawn. discriminate.
  - apply shows_drawn. discriminate.
  - reflexivity.
Defined.

(** X15.  The tooltip reads an optional field that is the empty string as
    it reads an absent one: the two give the same tooltip, and a tooltip
    for an entry without such fields holds the name and the strength
    only. *)
Theorem tooltip_skips_empty_fields (d : entry) (event : MouseEvent) :
  tooltip d event = tooltip (as_read d) event /\
  (present (Title (details d)) = None ->
   present (Beliefs (details d)) = None ->
   present (Style (details d)) = None ->
   content_of (tooltip d event) =
     Html (Tpl [Lit "<strong>"; Lit (name d); Lit "</strong><br> Strength: ";
                Val (strength d); Lit "/10<br> "])).
Proof.
  destruct d as [o n v [st t b y]]. unfold tooltip, as_read. cbn [details name strength
    Title Beliefs Style oid Strength]. split.
  - destruct t as [[|? ?]|], b as [[|? ?]|], y as [[|? ?]|]; reflexivity.
  - destruct t as [[|? ?]|], b as [[|? ?]|], y as [[|? ?]|]; cbn [present];
      intros; try discriminate; reflexivity.
Qed.

(** ** How the effect and the handlers compose *)

Lemma remove_twice (sel : selector) (forest : list node) :
  remove sel (remove sel forest) = remove sel forest.
Proof. apply remove_none, selectAll_remove. Qed.

Lemma rest_radius_twice (data : Data) (d : entry) (lines : list node)
      (rho : entry -> Q) :
  chart data lines (rest_radius d (rest_radius d rho)) =
  chart data lines (rest_radius d rho).
Proof.
  unfold chart. f_equal. apply points_r_ext. intros x _. unfold rest_radius.
  now destruct (Nat.eqb (oid x) (oid d)).
Qed.

Lemma hover_radius_twice (data : Data) (d : entry) (lines : list node)
      (rho : entry -> Q) :
  chart data lines (hover_radius d (hover_radius d rho)) =
  chart data lines (hover_radius d rho).
Proof.
  unfold chart. f_equal. apply points_r_ext. intros x _. unfold hover_radius.
  now destruct (Nat.eqb (oid x) (oid d)).
Qed.

(** X16.  A pointer-leave that is repeated changes nothing any more, and
    a pointer-enter that is repeated on the same point changes nothing
    in the container: the second one only appends one more tooltip. *)
Theorem hover_events_repeat (data : Data) (s : page) (i : nat) (key : string)
        (value : IdentityData) (event event' : MouseEvent) :
  shows data s -> nth_error data i = Some (key, value) ->
  let d := mkEntry i key (Strength value) value in
  mouseout i (mouseout i s) = mouseout i s /\
  chartRef (mouseover i event' (mouseover i event s))
    = chartRef (mouseover i event s) /\
  body (mouseover i event' (mouseover i event s))
    = body (mouseover i event s) ++ [tooltip d event'].
Proof.
  intros Hs Hi d. pose proof (processedData_nth _ _ _ _ Hi) as Hd. fold d in Hd.
  destruct (shows_shape _ _ Hs) as (cx0 & cy0 & stroke & items & rho & rest & ->).
  split; [|split].
  - rewrite (mouseout_shown _ _ _ _ _ _ _ _ _ Hd).
    rewrite (mouseout_shown data _ _ i d 0 0 "" [] Hd).
    unfold shown. now rewrite rest_radius_twice, remove_twice.
  - rewrite (mouseover_shown _ _ _ _ _ _ _ _ _ _ Hd). unfold hover_lines at 1.
    rewrite (mouseover_shown _ _ _ _ _ _ _ _ _ _ Hd).
    unfold shown. cbn [chartRef]. now rewrite hover_radius_twice.
  - apply (mouseover_body data _ i event' d); [|exact Hd].
    now apply shows_mouseover.
Qed.

Lemma hover_events_repeat_witness :
  mouseout 1 (mouseout 1 (useEffect (Some example_data) page_with_overlays))
  = mouseout 1 (useEffect (Some example_data) page_with_overlays).
Proof.
  apply (hover_events_repeat example_data
           (useEffect (Some example_data) page_with_overlays) 1 "B"
           (mkIdentityData 10 None None None) (mkMouseEvent 1 1) (mkMouseEvent 2 2)).
  - apply shows_drawn. discriminate.
  - reflexivity.
Defined.

(** X17.  When the effect runs for a new mapping on a page that shows a
    chart, in the middle of a hover or not, the page shows the chart of
    the new mapping as a first render draws it: no connector line, every
    inner circle at the size of its strength, and handlers that close
    over the new mapping.  The rest of the document, with any tooltip
    that is still in it, stays as it is. *)
Theorem rerender_ends_hover (data next : Data) (s : page) :
  shows data s ->
  let again := useEffect (Some next) s in
  shows next again /\
  chartRef again = Some [fst (draw next)] /\
  connection_lines again = [] /\
  (forall i key value, nth_error next i = Some (key, value) ->
     exists dot, nth_error (dots again) i = Some dot /\
                 attr "r" dot = Some (Num (calculateSize (Strength value)))) /\
  option_map cl_data (handlers again) = Some next /\
  body again = body s.
Proof.
  intros Hs again.
  destruct (shows_shape _ _ Hs) as (cx0 & cy0 & stroke & items & rho & rest & ->).
  assert (Hc : chartRef (shown data (map (line_node cx0 cy0 stroke) items) rho rest)
               <> None) by discriminate.
  split; [now apply shows_drawn|].
  unfold again. rewrite (drawn_shown next _ Hc).
  split; [unfold shown; cbn [chartRef]; now rewrite draw_chart|].
  split; [now rewrite shown_lines|]. split; [|split; reflexivity].
  intros i key value Hi. pose proof (processedData_nth _ _ _ _ Hi) as Hd.
  destruct (hover_color _ _ _ Hd) as [fill [Hf _]].
  rewrite shown_dots, dots_r_at, Hd, Hf by reflexivity.
  eexists. split; reflexivity.
Qed.

Lemma rerender_ends_hover_witness :
  connection_lines
    (useEffect (Some thirteen)
       (mouseover 0 (mkMouseEvent 5 5) (useEffect (Some example_data) empty_page)))
  = [].
Proof.
  apply (rerender_ends_hover example_data thirteen
           (mouseover 0 (mkMouseEvent 5 5) (useEffect (Some example_data) empty_page))).
  apply shows_mouseover, shows_drawn. discriminate.
Defined.
